(** * Thermocouple conversion (typek.py): a shallow embedding

    The Python module interpolates over a calibration table in both
    directions and composes the two conversions into a cold-junction
    compensated temperature.  Numbers are modelled as exact rationals
    ([Q], compared with [==]), so the rounding of floating-point
    arithmetic is not modelled; Python exceptions as an error result. *)

From Equations Require Import Equations.
From Stdlib Require Import ZArith QArith Qround List String Ascii Bool Lia Arith.
Import ListNotations.

Local Open Scope Q_scope.

(** ** Exceptions and results *)

(** A formatted message: the literal text of the template and the
    values substituted for its replacement fields. *)
Inductive piece : Type :=
| Text (s : string)
| Num (q : Q).

Definition message := list piece.

Inductive exn : Type :=
| RangeError (args : message)
| IndexError
| ZeroDivisionError.

Inductive result (A : Type) : Type :=
| Ok (a : A)
| Raise (e : exn).
Arguments Ok {A} a.
Arguments Raise {A} e.

Definition bind {A B} (m : result A) (k : A -> result B) : result B :=
  match m with
  | Ok a => k a
  | Raise e => Raise e
  end.

Notation "'let!' x ':=' m 'in' k" := (bind m (fun x => k))
  (at level 10, x name, m at level 100, k at level 200).

(** ** Python primitives used by the module *)

Module Py.

Definition Qlt_bool (a b : Q) : bool := negb (Qle_bool b a).

(** [a[i]] on a list: negative indices count from the end, anything
    outside [-len, len) raises IndexError. *)
Definition getitem {A} (a : list A) (i : Z) : result A :=
  let n := Z.of_nat (List.length a) in
  let j := if (i <? 0)%Z then (n + i)%Z else i in
  if ((0 <=? j) && (j <? n))%Z%bool then
    match nth_error a (Z.to_nat j) with
    | Some v => Ok v
    | None => Raise IndexError
    end
  else Raise IndexError.

(** [int(q)]: truncation towards zero. *)
Definition int (q : Q) : Z := Z.quot (Qnum q) (Zpos (Qden q)).

(** [a // b]: floor division. *)
Definition floordiv (a b : Q) : result Q :=
  if Qeq_bool b 0 then Raise ZeroDivisionError
  else Ok (inject_Z (Qfloor (a / b))).

(** [a % b]: the remainder that goes with floor division. *)
Definition mod_ (a b : Q) : result Q :=
  if Qeq_bool b 0 then Raise ZeroDivisionError
  else Ok (a - b * inject_Z (Qfloor (a / b))).

(** [a / b]: true division. *)
Definition truediv (a b : Q) : result Q :=
  if Qeq_bool b 0 then Raise ZeroDivisionError
  else Ok (a / b).

(** [range(start, stop, step)] for a positive step. *)
Definition range (start stop step : Z) : list Z :=
  map (fun k => (start + Z.of_nat k * step)%Z)
      (seq 0 (Z.to_nat ((stop - start + step - 1) / step))).

(** [template.format(arg)] with one positional argument: each [{}]
    of the template is replaced by the argument. *)
Fixpoint format_from (acc : string) (t : string) (arg : Q) : message :=
  match t with
  | EmptyString =>
      match acc with
      | EmptyString => []
      | _ => [Text acc]
      end
  | String "{" (String "}" rest) =>
      match acc with
      | EmptyString => Num arg :: format_from EmptyString rest arg
      | _ => Text acc :: Num arg :: format_from EmptyString rest arg
      end
  | String c rest => format_from (acc ++ String c EmptyString) rest arg
  end.

Definition format (t : string) (arg : Q) : message :=
  format_from EmptyString t arg.

(** [bisect.bisect(a, x)], i.e. [bisect_right] with [lo = 0] and
    [hi = len(a)]: the loop
    [while lo < hi: mid = (lo+hi)//2; if x < a[mid]: hi = mid else: lo = mid+1]. *)
Equations? bisect_loop (a : list Q) (x : Q) (lo hi : nat) : nat
  by wf (hi - lo)%nat lt :=
  bisect_loop a x lo hi with lt_dec lo hi => {
    | right _ := lo
    | left _ with Qlt_bool x (nth ((lo + hi) / 2) a 0) => {
        | true := bisect_loop a x lo ((lo + hi) / 2)
        | false := bisect_loop a x ((lo + hi) / 2 + 1) hi } }.
Proof.
  all: change (fst (Nat.divmod (lo + hi) 1 0 1)) with ((lo + hi) / 2)%nat;
    assert ((lo + hi) / 2 < hi)%nat by (apply Nat.Div0.div_lt_upper_bound; lia);
    assert (lo <= (lo + hi) / 2)%nat by (apply Nat.div_le_lower_bound; lia); lia.
Qed.

Definition bisect (a : list Q) (x : Q) : Z :=
  Z.of_nat (bisect_loop a x 0 (List.length a)).

End Py.

(** ** class Interpolate *)

Record Interpolate : Type := {
  x_interval : Z;
  x_array : list Q;
  y_array : list Q
}.

(** [Interpolate.__init__] *)
Definition Interpolate_init (interval : Q) (xs ys : list Q) : Interpolate :=
  {| x_interval := Py.int interval; x_array := xs; y_array := ys |}.

(** The index computed on the first line of [from_x]. *)
Definition from_x_idx (self : Interpolate) (x_value : Q) : result Z :=
  let! q := Py.floordiv x_value (inject_Z (x_interval self)) in
  Ok (Py.int (q + 28)).

(** [Interpolate.from_x] *)
Definition from_x (self : Interpolate) (x_value : Q) : result Q :=
  let! idx := from_x_idx self x_value in
  let! x := Py.mod_ x_value 10 in
  let! y1 := Py.getitem (y_array self) (idx - 1) in
  let! y2 := Py.getitem (y_array self) idx in
  let! slope := Py.truediv (y2 - y1) (inject_Z (x_interval self)) in
  Ok (slope * x + y1).

(** The index computed on the first line of [from_y]. *)
Definition from_y_idx (self : Interpolate) (y_value : Q) : Z :=
  Py.bisect (y_array self) y_value.

(** [Interpolate.from_y] *)
Definition from_y (self : Interpolate) (y_value : Q) : result Q :=
  let idx := from_y_idx self y_value in
  let! offset := Py.getitem (x_array self) (idx - 1) in
  let! y1 := Py.getitem (y_array self) (idx - 1) in
  let! y2 := Py.getitem (y_array self) idx in
  let y := y_value - y1 in
  let! slope := Py.truediv (inject_Z (x_interval self)) (y2 - y1) in
  Ok (slope * y + offset).

(** ** class ThermocoupleMixin *)

(** The class attributes a concrete thermocouple type supplies. *)
Record Thermocouple : Type := {
  scale : string;
  degrees_interval : Q;
  min_degrees : Q;
  max_degrees : Q;
  min_mv : Q;
  max_mv : Q;
  degrees : list Q;
  millivolts : list Q
}.

(** [ThermocoupleMixin.__init__]: the interpolator the instance owns. *)
Definition interp (self : Thermocouple) : Interpolate :=
  Interpolate_init (degrees_interval self) (degrees self) (millivolts self).

Definition out_of_range : string := "{}mV out of range.".

(** [ThermocoupleMixin.degs_to_mv] *)
Definition degs_to_mv (self : Thermocouple) (degs : Q) : result Q :=
  if negb (Qle_bool (min_degrees self) degs && Py.Qlt_bool degs (max_degrees self))
  then Raise (RangeError (Py.format out_of_range degs))
  else from_x (interp self) degs.

(** [ThermocoupleMixin.mv_to_degs] *)
Definition mv_to_degs (self : Thermocouple) (mv : Q) : result Q :=
  if negb (Qle_bool (min_mv self) mv && Py.Qlt_bool mv (max_mv self))
  then Raise (RangeError (Py.format out_of_range mv))
  else from_y (interp self) mv.

(** [ThermocoupleMixin.temperature] *)
Definition temperature (self : Thermocouple)
    (reference_temperature thermocouple_millivolts : Q) : result Q :=
  let! reference_mv := degs_to_mv self reference_temperature in
  mv_to_degs self (reference_mv + thermocouple_millivolts).

(** ** class TypeK *)

Module TypeK.

Definition scale : string := "Celsius".
Definition degrees_interval : Z := 10.
Definition min_degrees : Z := -270.
Definition max_degrees : Z := 1370.
Definition min_mv : Q := -6458 # 1000.
Definition max_mv : Q := 54818 # 1000.

Definition degrees : list Z :=
  Py.range min_degrees (max_degrees + degrees_interval) degrees_interval.

(** The literal table, written in microvolts: [-6458] stands for the
    source's [-6.458]. *)
Definition microvolts : list Z := [
  -6458; -6441; -6404; -6344; -6262; -6158; -6035; -5891;
  -5730; -5550; -5354; -5141; -4913; -4669; -4411; -4138; -3852; -3554;
  -3243; -2920; -2587; -2243; -1889; -1527; -1156; -778; -392; 0;
  397; 798; 1203; 1612; 2023; 2436; 2851; 3267; 3682; 4096; 4509;
  4920; 5328; 5735; 6138; 6540; 6941; 7340; 7739; 8138; 8539; 8940;
  9343; 9747; 10153; 10561; 10971; 11382; 11795; 12209; 12624; 13040;
  13457; 13874; 14293; 14713; 15133; 15554; 15975; 16397; 16820; 17243;
  17667; 18091; 18516; 18941; 19366; 19792; 20218; 20644; 21071; 21497;
  21924; 22350; 22776; 23203; 23629; 24055; 24480; 24905; 25330; 25755;
  26179; 26602; 27025; 27447; 27869; 28289; 28710; 29129; 29548; 29965;
  30382; 30798; 31213; 31628; 32041; 32453; 32865; 33275; 33685; 34093;
  34501; 34908; 35313; 35718; 36121; 36524; 36925; 37326; 37725; 38124;
  38522; 38918; 39314; 39708; 40101; 40494; 40885; 41276; 41665; 42053;
  42440; 42826; 43211; 43595; 43978; 44359; 44740; 45119; 45497; 45873;
  46249; 46623; 46995; 47367; 47737; 48105; 48473; 48838; 49202; 49565;
  49926; 50286; 50644; 51000; 51355; 51708; 52060; 52410; 52759; 53106;
  53451; 53795; 54138; 54479; 54819 ]%Z.

Definition millivolts : list Q := map (fun uv => uv # 1000) microvolts.

(** [tc = TypeK()] *)
Definition tc : Thermocouple :=
  Build_Thermocouple scale
    (inject_Z degrees_interval) (inject_Z min_degrees) (inject_Z max_degrees)
    min_mv max_mv (map inject_Z degrees) millivolts.

End TypeK.

(** ** Predicates on tables and the wording of the specification *)

(** [a.[k]]: entry [k] of a column. *)
Notation "a '.[' k ']'" := (nth k a 0) (at level 1, left associativity, format "a .[ k ]").

(** Order of a column, weak and strict. *)
Definition sorted (a : list Q) : Prop :=
  forall i j, (i <= j < List.length a)%nat -> nth i a 0 <= nth j a 0.

Definition strictly_increasing (a : list Q) : Prop :=
  forall i j, (i < j < List.length a)%nat -> nth i a 0 < nth j a 0.

(** Strict order checked on neighbours. *)
Fixpoint increasingb (a : list Q) : bool :=
  match a with
  | x :: (y :: _) as t => Py.Qlt_bool x y && increasingb t
  | _ => true
  end.

(** The x column is a grid: [x[k] = x0 + k * step]. *)
Definition on_grid (x0 : Q) (step : Z) (xs : list Q) : Prop :=
  forall k, (k < List.length xs)%nat ->
    xs.[k] == x0 + inject_Z step * inject_Z (Z.of_nat k).

(** The specification's forward lookup, in its own words: the bracket
    index [floor((x_value - x[0]) / x_interval) + 1], the offset
    [(x_value - x[0]) mod x_interval] and the blend
    [y1 + (y2 - y1) / x_interval * offset]. *)
Definition forward_index (self : Interpolate) (x_value : Q) : Z :=
  (Qfloor ((x_value - (x_array self).[0]) / inject_Z (x_interval self)) + 1)%Z.

Definition forward_offset (self : Interpolate) (x_value : Q) : Q :=
  let d := x_value - (x_array self).[0] in
  let step := inject_Z (x_interval self) in
  d - step * inject_Z (Qfloor (d / step)).

Definition forward (self : Interpolate) (x_value : Q) : Q :=
  let i := Z.to_nat (forward_index self x_value) in
  let y1 := (y_array self).[i - 1] in
  let y2 := (y_array self).[i] in
  y1 + (y2 - y1) / inject_Z (x_interval self) * forward_offset self x_value.

(** [from_x] returns what the specification's formula gives. *)
Definition from_x_meets_spec (self : Interpolate) (x_value : Q) : Prop :=
  exists r, from_x self x_value = Ok r /\ r == forward self x_value.

(** Whether a result is a raised RangeError. *)
Definition is_RangeError (e : exn) : bool :=
  match e with
  | RangeError _ => true
  | _ => false
  end.

Definition raises_RangeError {A} (r : result A) : bool :=
  match r with
  | Raise e => is_RangeError e
  | Ok _ => false
  end.

(** The reading of C8: the lookup at y[i] resolves to the segment
    that starts at entry i, and mv_to_degs(y[i]) is not x[i]. *)
Definition inverse_inexact_at (self : Thermocouple) (i : nat) : Prop :=
  from_y_idx (interp self) (millivolts self).[i] = Z.of_nat (i + 1) /\
  ~ (exists r, mv_to_degs self (millivolts self).[i] = Ok r /\ r == (degrees self).[i]).

(** Whether mv_to_degs(y[i]) returns x[i]. *)
Definition inverse_exactb (self : Thermocouple) (i : nat) : bool :=
  match mv_to_degs self (millivolts self).[i] with
  | Ok r => Qeq_bool r (degrees self).[i]
  | Raise _ => false
  end.

(** The bounds a query can violate. *)
Inductive axis : Type := DegreesAxis | MillivoltsAxis.
Inductive side : Type := LowerBound | UpperBound.

(** The bound of [[lo, hi)] that [v] violates, if any. *)
Definition violated (lo hi v : Q) : option side :=
  if Py.Qlt_bool v lo then Some LowerBound
  else if Qle_bool hi v then Some UpperBound
  else None.

(** The literal text of a message, without the substituted values. *)
Fixpoint wording (m : message) : list string :=
  match m with
  | [] => []
  | Text t :: rest => t :: wording rest
  | Num _ :: rest => wording rest
  end.

(** The reading of C9: beside the value, the error names the violated
    bound and its axis, so that they can be read off the text of its
    message. *)
Definition RangeError_names_bound (self : Thermocouple) : Prop :=
  exists decode : list string -> option (axis * side),
    (forall v m, degs_to_mv self v = Raise (RangeError m) ->
       decode (wording m)
       = option_map (pair DegreesAxis) (violated (min_degrees self) (max_degrees self) v)) /\
    (forall v m, mv_to_degs self v = Raise (RangeError m) ->
       decode (wording m)
       = option_map (pair MillivoltsAxis) (violated (min_mv self) (max_mv self) v)).

(** A weaker reading of C9: the violated bound and its axis can be told
    from the exception alone, its value included, whichever converter
    raised it. *)
Definition RangeError_indicates_bound : Prop :=
  exists decode : exn -> option (axis * side),
    forall self : Thermocouple,
      (forall v m, degs_to_mv self v = Raise (RangeError m) ->
         decode (RangeError m)
         = option_map (pair DegreesAxis) (violated (min_degrees self) (max_degrees self) v)) /\
      (forall v m, mv_to_degs self v = Raise (RangeError m) ->
         decode (RangeError m)
         = option_map (pair MillivoltsAxis) (violated (min_mv self) (max_mv self) v)).

(** A converter for a sensor of higher voltages, declared the way
    [TypeK] is: three rows from -270 to -250 degrees, 60 mV to 70 mV. *)
Definition high_range : Thermocouple :=
  {| scale := "Celsius";
     degrees_interval := 10;
     min_degrees := -270;
     max_degrees := -250;
     min_mv := 60;
     max_mv := 70;
     degrees := [-270; -260; -250];
     millivolts := [60; 65; 70] |}.

(** ** Facts about the Python primitives *)

Lemma Qlt_bool_iff (a b : Q) : Py.Qlt_bool a b = true <-> a < b.
Proof.
  unfold Py.Qlt_bool. rewrite negb_true_iff. split; intro H.
  - apply Qnot_le_lt. intro Hle. apply Qle_bool_iff in Hle. congruence.
  - destruct (Qle_bool b a) eqn:E; [|reflexivity].
    apply Qle_bool_iff in E. exfalso. exact (Qlt_not_le _ _ H E).
Qed.

Lemma Qlt_bool_false_iff (a b : Q) : Py.Qlt_bool a b = false <-> b <= a.
Proof.
  split; intro H.
  - apply Qnot_lt_le. intro Hlt. apply Qlt_bool_iff in Hlt. congruence.
  - destruct (Py.Qlt_bool a b) eqn:E; [|reflexivity].
    apply Qlt_bool_iff in E. exfalso. exact (Qlt_not_le _ _ E H).
Qed.

Lemma Qle_bool_false_iff (a b : Q) : Qle_bool a b = false <-> b < a.
Proof.
  split; intro H.
  - apply Qnot_le_lt. intro Hle. apply Qle_bool_iff in Hle. congruence.
  - destruct (Qle_bool a b) eqn:E; [|reflexivity].
    apply Qle_bool_iff in E. exfalso. exact (Qlt_not_le _ _ H E).
Qed.

(** The range test of both conversions, as a proposition. *)
Lemma range_check_iff (lo hi v : Q) :
  negb (Qle_bool lo v && Py.Qlt_bool v hi) = false <-> lo <= v /\ v < hi.
Proof.
  rewrite negb_false_iff, andb_true_iff, Qle_bool_iff, Qlt_bool_iff. tauto.
Qed.

Lemma getitem_nat {A} (a : list A) (k : nat) (d : A) :
  (k < List.length a)%nat ->
  Py.getitem a (Z.of_nat k) = Ok (nth k a d).
Proof.
  intro Hk. unfold Py.getitem.
  destruct (Z.ltb_spec (Z.of_nat k) 0); [lia|].
  destruct (Z.leb_spec 0 (Z.of_nat k)); [|lia].
  destruct (Z.ltb_spec (Z.of_nat k) (Z.of_nat (List.length a))); [|lia].
  cbn [andb]. rewrite Nat2Z.id.
  rewrite (nth_error_nth' a d Hk). reflexivity.
Qed.

Lemma int_inject_Z_plus (z k : Z) : Py.int (inject_Z z + inject_Z k) = (z + k)%Z.
Proof.
  unfold Py.int, inject_Z, Qplus. cbn [Qnum Qden].
  rewrite Z.quot_1_r. lia.
Qed.

Lemma Qfloor_plus_Z (a : Q) (k : Z) : Qfloor (a + inject_Z k) = (Qfloor a + k)%Z.
Proof.
  destruct a as [n d]. unfold Qfloor, Qplus, inject_Z. cbn [Qnum Qden].
  rewrite Pos.mul_1_r, Z.mul_1_r.
  rewrite Z.div_add by lia. reflexivity.
Qed.

Lemma floordiv_nonzero (a b : Q) :
  ~ b == 0 -> Py.floordiv a b = Ok (inject_Z (Qfloor (a / b))).
Proof.
  intro Hb. unfold Py.floordiv.
  destruct (Qeq_bool b 0) eqn:E; [apply Qeq_bool_iff in E; contradiction|reflexivity].
Qed.

Lemma mod_nonzero (a b : Q) :
  ~ b == 0 -> Py.mod_ a b = Ok (a - b * inject_Z (Qfloor (a / b))).
Proof.
  intro Hb. unfold Py.mod_.
  destruct (Qeq_bool b 0) eqn:E; [apply Qeq_bool_iff in E; contradiction|reflexivity].
Qed.

Lemma truediv_nonzero (a b : Q) : ~ b == 0 -> Py.truediv a b = Ok (a / b).
Proof.
  intro Hb. unfold Py.truediv.
  destruct (Qeq_bool b 0) eqn:E; [apply Qeq_bool_iff in E; contradiction|reflexivity].
Qed.

(** ** The binary search *)

Lemma strictly_increasing_sorted (a : list Q) :
  strictly_increasing a -> sorted a.
Proof.
  intros Hs i j Hij.
  destruct (Nat.eq_dec i j) as [->|Hne]; [apply Qle_refl|].
  apply Qlt_le_weak, Hs. lia.
Qed.

(** The loop keeps everything left of [lo] at most [x] and everything
    from [hi] on above [x]; it stops at the boundary between the two. *)
Lemma bisect_loop_spec (a : list Q) (x : Q) (lo hi : nat) :
  sorted a ->
  (lo <= hi <= List.length a)%nat ->
  (forall j, (j < lo)%nat -> nth j a 0 <= x) ->
  (forall j, (hi <= j < List.length a)%nat -> x < nth j a 0) ->
  (lo <= Py.bisect_loop a x lo hi <= hi)%nat /\
  (forall j, (j < Py.bisect_loop a x lo hi)%nat -> nth j a 0 <= x) /\
  (forall j, (Py.bisect_loop a x lo hi <= j < List.length a)%nat -> x < nth j a 0).
Proof.
  intro Hs. funelim (Py.bisect_loop a x lo hi); intros Hb Hlo Hhi.
  - (* lo >= hi: the loop is over *)
    repeat split; [lia|lia|exact Hlo|].
    intros j Hj. apply Hhi. lia.
  - (* x < a[mid] *)
    assert (Hm1 : ((lo + hi) / 2 < hi)%nat) by (apply Nat.Div0.div_lt_upper_bound; lia).
    assert (Hm2 : (lo <= (lo + hi) / 2)%nat) by (apply Nat.div_le_lower_bound; lia).
    apply Qlt_bool_iff in Heq.
    destruct (H Hs) as (R1 & R2 & R3); [lia|exact Hlo| |].
    + intros j Hj. eapply Qlt_le_trans; [exact Heq|]. apply Hs. lia.
    + repeat split; [lia|lia|exact R2|exact R3].
  - (* a[mid] <= x *)
    assert (Hm1 : ((lo + hi) / 2 < hi)%nat) by (apply Nat.Div0.div_lt_upper_bound; lia).
    assert (Hm2 : (lo <= (lo + hi) / 2)%nat) by (apply Nat.div_le_lower_bound; lia).
    apply Qlt_bool_false_iff in Heq.
    destruct (H Hs) as (R1 & R2 & R3); [lia| |exact Hhi|].
    + intros j Hj. eapply Qle_trans; [|exact Heq]. apply Hs. lia.
    + repeat split; [lia|lia|exact R2|exact R3].
Qed.

(** [bisect] on a sorted list: the number of entries that are at most
    [x], which is also the smallest index holding an entry above [x]. *)
Lemma bisect_spec (a : list Q) (x : Q) :
  sorted a ->
  exists r : nat,
    Py.bisect a x = Z.of_nat r /\ (r <= List.length a)%nat /\
    (forall j, (j < r)%nat -> nth j a 0 <= x) /\
    (forall j, (r <= j < List.length a)%nat -> x < nth j a 0).
Proof.
  intro Hs. exists (Py.bisect_loop a x 0 (List.length a)).
  destruct (bisect_loop_spec a x 0 (List.length a) Hs) as (R1 & R2 & R3);
    [lia| intros j Hj; lia | intros j Hj; lia |].
  repeat split; [lia|exact R2|exact R3].
Qed.

(** ** The inverse direction *)

(** What [from_y] does on a strictly increasing table for a value in
    [[y[0], y[N-1])]: the index it computes, the bracket, the value. *)
Lemma from_y_bracket (self : Interpolate) (y_value : Q) :
  let xs := x_array self in
  let ys := y_array self in
  let N := List.length ys in
  List.length xs = N ->
  strictly_increasing ys ->
  ys.[0] <= y_value -> y_value < ys.[N - 1] ->
  exists i : nat,
    (1 <= i < N)%nat /\
    from_y_idx self y_value = Z.of_nat i /\
    ys.[i - 1] <= y_value /\ y_value < ys.[i] /\
    (forall j, (j < N)%nat -> y_value < ys.[j] -> (i <= j)%nat) /\
    exists r, from_y self y_value = Ok r /\
      r == xs.[i - 1]
           + inject_Z (x_interval self) / (ys.[i] - ys.[i - 1]) * (y_value - ys.[i - 1]).
Proof.
  intros xs ys N Hlen Hinc Hlo Hhi.
  destruct (bisect_spec ys y_value (strictly_increasing_sorted _ Hinc))
    as (r & Hr & HrN & Hbelow & Habove).
  fold N in HrN, Habove.
  assert (HN : (2 <= N)%nat).
  { destruct N as [|[|n]]; [| |lia]; cbn in Hhi;
      exfalso; exact (Qlt_not_le _ _ Hhi Hlo). }
  assert (Hr1 : (1 <= r)%nat).
  { destruct r; [|lia]. exfalso.
    apply (Qlt_not_le _ _ (Habove 0%nat ltac:(lia)) Hlo). }
  assert (Hr2 : (r < N)%nat).
  { destruct (Nat.eq_dec r N) as [->|]; [|lia]. exfalso.
    apply (Qlt_not_le _ _ Hhi). apply Hbelow. lia. }
  assert (Hgap : ys.[r - 1] < ys.[r]) by (apply Hinc; fold N; lia).
  exists r. split; [lia|]. split; [exact Hr|].
  split; [apply Hbelow; lia|]. split; [apply Habove; lia|].
  split.
  { intros j Hj Hv. destruct (Nat.lt_ge_cases j r) as [Hjr|]; [|assumption].
    exfalso. exact (Qlt_not_le _ _ Hv (Hbelow j Hjr)). }
  unfold from_y, from_y_idx. fold ys xs. rewrite Hr.
  replace (Z.of_nat r - 1)%Z with (Z.of_nat (r - 1)) by lia.
  rewrite (getitem_nat xs (r - 1) 0) by lia.
  rewrite (getitem_nat ys (r - 1) 0) by (fold N; lia).
  rewrite (getitem_nat ys r 0) by (fold N; lia).
  cbn [bind].
  assert (Hnz : ~ ys.[r] - ys.[r - 1] == 0).
  { intro E. apply (Qlt_irrefl (ys.[r])).
    setoid_replace (ys.[r]) with (ys.[r - 1]) at 1; [exact Hgap|].
    setoid_replace (ys.[r]) with (ys.[r] - ys.[r - 1] + ys.[r - 1]) by ring.
    rewrite E. ring. }
  rewrite truediv_nonzero by exact Hnz. cbn [bind].
  eexists. split; [reflexivity|]. ring.
Qed.

(** ** The forward direction *)

Lemma ten_nonzero : ~ 10 == 0.
Proof. intro E. discriminate E. Qed.

(** What [from_x] does when the interval is 10 and the table starts at
    -270, whatever the y column holds: index, bracket and value. *)
Lemma from_x_grid (self : Interpolate) (x_value : Q) :
  let ys := y_array self in
  let N := List.length ys in
  x_interval self = 10%Z ->
  -270 <= x_value -> x_value < inject_Z (10 * (Z.of_nat N - 28)) ->
  exists i : nat,
    (1 <= i < N)%nat /\
    Z.of_nat i = (Qfloor (x_value / 10) + 28)%Z /\
    from_x_idx self x_value = Ok (Z.of_nat i) /\
    exists r, from_x self x_value = Ok r /\
      r == ys.[i - 1]
           + (ys.[i] - ys.[i - 1]) / 10
             * (x_value - 10 * inject_Z (Qfloor (x_value / 10))).
Proof.
  intros ys N Hiv Hlo Hhi.
  set (q := Qfloor (x_value / 10)).
  assert (Hq1 : (-27 <= q)%Z).
  { rewrite <- (Qfloor_Z (-27)).
    apply Qfloor_resp_le. apply Qle_shift_div_l; [reflexivity|exact Hlo]. }
  assert (Hq2 : (q < Z.of_nat N - 28)%Z).
  { rewrite Zlt_Qlt. eapply Qle_lt_trans; [apply Qfloor_le|].
    apply Qlt_shift_div_r; [reflexivity|].
    setoid_replace (inject_Z (Z.of_nat N - 28) * 10)
      with (inject_Z (10 * (Z.of_nat N - 28))); [exact Hhi|].
    rewrite inject_Z_mult. apply Qmult_comm. }
  exists (Z.to_nat (q + 28)).
  assert (Hi : Z.of_nat (Z.to_nat (q + 28)) = (q + 28)%Z) by lia.
  split; [lia|]. split; [exact Hi|].
  assert (Hidx : from_x_idx self x_value = Ok (Z.of_nat (Z.to_nat (q + 28)))).
  { unfold from_x_idx. rewrite Hiv.
    rewrite floordiv_nonzero by exact ten_nonzero. cbn [bind].
    fold q. change 28 with (inject_Z 28).
    rewrite int_inject_Z_plus, Hi. reflexivity. }
  split; [exact Hidx|].
  unfold from_x. rewrite Hidx. cbn [bind].
  rewrite mod_nonzero by exact ten_nonzero. cbn [bind]. fold q.
  replace (Z.of_nat (Z.to_nat (q + 28)) - 1)%Z
    with (Z.of_nat (Z.to_nat (q + 28) - 1)) by lia.
  fold ys.
  rewrite (getitem_nat ys (Z.to_nat (q + 28) - 1) 0) by (fold N; lia).
  rewrite (getitem_nat ys (Z.to_nat (q + 28)) 0) by (fold N; lia).
  cbn [bind]. rewrite Hiv. change (inject_Z 10) with 10.
  rewrite truediv_nonzero by exact ten_nonzero. cbn [bind].
  eexists. split; [reflexivity|]. ring.
Qed.

(** ** Checking a table *)

Lemma increasingb_head (x : Q) (t : list Q) :
  increasingb (x :: t) = true ->
  forall j, (j < List.length t)%nat -> x < t.[j].
Proof.
  revert x. induction t as [|y t IH]; intros x H j Hj; [cbn in Hj; lia|].
  cbn [increasingb] in H. apply andb_true_iff in H. destruct H as [Hxy Ht].
  apply Qlt_bool_iff in Hxy.
  destruct j as [|j]; [exact Hxy|].
  cbn [nth]. eapply Qlt_trans; [exact Hxy|].
  apply IH; [exact Ht|cbn in Hj; lia].
Qed.

Lemma increasingb_sound (a : list Q) :
  increasingb a = true -> strictly_increasing a.
Proof.
  induction a as [|x t IH]; intros H i j Hij; [cbn in Hij; lia|].
  destruct j as [|j]; [lia|].
  destruct i as [|i].
  - cbn [nth]. apply increasingb_head; [exact H|cbn in Hij; lia].
  - cbn [nth]. apply IH; [|cbn in Hij; lia].
    destruct t as [|y t]; [reflexivity|].
    cbn [increasingb] in H. apply andb_true_iff in H. tauto.
Qed.

(** ** The Type K table *)

Lemma TypeK_interval : x_interval (interp TypeK.tc) = 10%Z.
Proof. reflexivity. Qed.

Lemma TypeK_length_degrees : List.length (degrees TypeK.tc) = 165%nat.
Proof. reflexivity. Qed.

Lemma TypeK_length_millivolts : List.length (millivolts TypeK.tc) = 165%nat.
Proof. reflexivity. Qed.

Lemma TypeK_millivolts_increasing : strictly_increasing (millivolts TypeK.tc).
Proof. apply increasingb_sound. vm_compute. reflexivity. Qed.

Lemma range_nth (start stop step : Z) (k : nat) :
  (k < List.length (Py.range start stop step))%nat ->
  nth k (Py.range start stop step) 0%Z = (start + Z.of_nat k * step)%Z.
Proof.
  unfold Py.range. rewrite length_map, length_seq. intro Hk.
  set (f := fun k : nat => (start + Z.of_nat k * step)%Z).
  rewrite (nth_indep _ 0%Z (f 0%nat))
    by (rewrite length_map, length_seq; exact Hk).
  rewrite map_nth, seq_nth by exact Hk. reflexivity.
Qed.

Lemma TypeK_degrees_nth (k : nat) :
  (k < 165)%nat ->
  (degrees TypeK.tc).[k] = inject_Z (-270 + 10 * Z.of_nat k).
Proof.
  intro Hk. cbn [degrees TypeK.tc].
  change 0 with (inject_Z 0). rewrite map_nth.
  unfold TypeK.degrees. rewrite range_nth by exact Hk.
  unfold TypeK.min_degrees, TypeK.degrees_interval. f_equal. lia.
Qed.

(** * The claims *)

(** ** C1: the forward direction against the formula of the specification *)

(** Where the constants of [from_x] fit.  When the interval is 10 and
    the x column is the grid that starts at -270 (the Type K table), for
    every x_value in [x[0], x[N-1]) [from_x] returns
    y[i-1] + (y[i] - y[i-1]) / x_interval * offset with
    i = floor((x_value - x[0]) / x_interval) + 1 and
    offset = (x_value - x[0]) mod x_interval; i - 1 and i are indices
    of the table, and when offset = 0 the result equals y[i-1]. *)
Lemma from_x_interpolates_on_grid (self : Interpolate) (x_value : Q) :
  let xs := x_array self in
  let ys := y_array self in
  let N := List.length xs in
  x_interval self = 10%Z ->
  List.length ys = N ->
  on_grid (-270) 10 xs ->
  xs.[0] <= x_value -> x_value < xs.[N - 1] ->
  (1 <= forward_index self x_value <= Z.of_nat N - 1)%Z /\
  from_x_idx self x_value = Ok (forward_index self x_value) /\
  exists r, from_x self x_value = Ok r /\
    r == forward self x_value /\
    (forward_offset self x_value == 0 ->
     r == ys.[Z.to_nat (forward_index self x_value) - 1]).
Proof.
  intros xs ys N Hiv Hlen Hgrid Hlo Hhi.
  assert (HN : (1 <= N)%nat).
  { destruct N; [|lia]. exfalso. exact (Qlt_not_le _ _ Hhi Hlo). }
  assert (H0 : xs.[0] == -270).
  { rewrite (Hgrid 0%nat) by (fold N; lia). reflexivity. }
  assert (Hlast : xs.[N - 1] == inject_Z (10 * (Z.of_nat N - 28))).
  { rewrite (Hgrid (N - 1)%nat) by (fold N; lia).
    rewrite <- inject_Z_mult. change (-270) with (inject_Z (-270)).
    rewrite <- inject_Z_plus. apply inject_Z_injective. lia. }
  rewrite H0 in Hlo. rewrite Hlast in Hhi.
  destruct (from_x_grid self x_value Hiv Hlo) as (i & Hi & Hiq & Hidx & r & Hr & Hval).
  { fold ys. rewrite Hlen. exact Hhi. }
  fold ys in Hi, Hval. rewrite Hlen in Hi.
  assert (Hshift : (x_value - xs.[0]) / 10 == x_value / 10 + inject_Z 27).
  { rewrite H0. change (inject_Z 27) with 27. field. }
  assert (Hfi : forward_index self x_value = Z.of_nat i).
  { unfold forward_index. fold xs. rewrite Hiv. change (inject_Z 10) with 10.
    rewrite (Qfloor_comp _ _ Hshift), Qfloor_plus_Z. lia. }
  assert (Hoff : forward_offset self x_value
                 == x_value - 10 * inject_Z (Qfloor (x_value / 10))).
  { unfold forward_offset. fold xs. rewrite Hiv. change (inject_Z 10) with 10.
    cbv zeta. rewrite (Qfloor_comp _ _ Hshift), Qfloor_plus_Z.
    rewrite inject_Z_plus, H0. change (inject_Z 27) with 27. ring. }
  rewrite Hfi. split; [lia|]. split; [exact Hidx|].
  exists r. split; [exact Hr|].
  assert (Hfw : r == forward self x_value).
  { unfold forward. rewrite Hfi, Nat2Z.id. fold ys. rewrite Hiv.
    change (inject_Z 10) with 10. rewrite Hoff. exact Hval. }
  split; [exact Hfw|].
  intro Hz. rewrite Nat2Z.id. rewrite Hval. rewrite <- Hoff, Hz. ring.
Qed.

Lemma TypeK_on_grid : on_grid (-270) 10 (x_array (interp TypeK.tc)).
Proof.
  intros k Hk. change (x_array (interp TypeK.tc)) with (degrees TypeK.tc) in *.
  rewrite TypeK_length_degrees in Hk. rewrite TypeK_degrees_nth by exact Hk.
  rewrite inject_Z_plus, inject_Z_mult. reflexivity.
Qed.

Ltac by_Qle := apply Qle_bool_iff; vm_compute; reflexivity.
Ltac by_Qlt := apply Qlt_bool_iff; vm_compute; reflexivity.

(** The Type K interpolator at 25 degrees. *)
Lemma TypeK_from_x_meets_formula_at_25 :
  x_interval (interp TypeK.tc) = 10%Z /\
  List.length (y_array (interp TypeK.tc)) = List.length (x_array (interp TypeK.tc)) /\
  on_grid (-270) 10 (x_array (interp TypeK.tc)) /\
  (x_array (interp TypeK.tc)).[0] <= 25 /\
  25 < (x_array (interp TypeK.tc)).[List.length (x_array (interp TypeK.tc)) - 1] /\
  ((1 <= forward_index (interp TypeK.tc) 25
      <= Z.of_nat (List.length (x_array (interp TypeK.tc))) - 1)%Z /\
   from_x_idx (interp TypeK.tc) 25 = Ok (forward_index (interp TypeK.tc) 25) /\
   exists r, from_x (interp TypeK.tc) 25 = Ok r /\
     r == forward (interp TypeK.tc) 25 /\
     (forward_offset (interp TypeK.tc) 25 == 0 ->
      r == (y_array (interp TypeK.tc)).[Z.to_nat (forward_index (interp TypeK.tc) 25) - 1])).
Proof.
  assert (h1 : x_interval (interp TypeK.tc) = 10%Z) by reflexivity.
  assert (h2 : List.length (y_array (interp TypeK.tc))
               = List.length (x_array (interp TypeK.tc))) by reflexivity.
  assert (h3 : (x_array (interp TypeK.tc)).[0] <= 25) by by_Qle.
  assert (h4 : 25 < (x_array (interp TypeK.tc)).[List.length (x_array (interp TypeK.tc)) - 1])
    by by_Qlt.
  exact (conj h1 (conj h2 (conj TypeK_on_grid (conj h3 (conj h4
    (from_x_interpolates_on_grid (interp TypeK.tc) 25 h1 h2 TypeK_on_grid h3 h4)))))).
Defined.

(** C1: [from_x] does not meet the formula of the specification on a
    table with a standard interval unless the table is laid out like the
    Type K one.  It adds the literal 28 to the quotient and reduces
    x_value modulo the literal 10, and it never reads the x column:
    - on x = [0, 10, 20], y = [0, 1, 2] (interval 10) the value 0 lies in
      [x[0], x[2]) and the formula gives y[0] = 0; [from_x] reads index 27
      and raises IndexError, while [from_y] on the same table maps 0 back
      to 0;
    - on x = [0, 5, 10] (interval 5) the same happens;
    - on x = [-260, -250, -240], y = [0, 1, 2] (interval 10) the formula
      gives y[0] = 0 at -260; [from_x] returns y[1] = 1 and raises nothing;
    - the result of [from_x] is the same for every x column. *)
Theorem from_x_fails_off_TypeK_grid :
  (let self := Interpolate_init 10 [0; 10; 20] [0; 1; 2] in
   on_grid 0 (x_interval self) (x_array self) /\
   ((x_array self).[0] <= 0 /\ 0 < (x_array self).[2]) /\
   forward self 0 == 0 /\
   from_x self 0 = Raise IndexError /\
   ~ from_x_meets_spec self 0 /\
   exists r, from_y self 0 = Ok r /\ r == 0) /\
  (let self := Interpolate_init 5 [0; 5; 10] [0; 1; 2] in
   on_grid 0 (x_interval self) (x_array self) /\
   ((x_array self).[0] <= 0 /\ 0 < (x_array self).[2]) /\
   forward self 0 == 0 /\
   from_x self 0 = Raise IndexError /\
   ~ from_x_meets_spec self 0) /\
  (let self := Interpolate_init 10 [-260; -250; -240] [0; 1; 2] in
   on_grid (-260) (x_interval self) (x_array self) /\
   ((x_array self).[0] <= -260 /\ -260 < (x_array self).[2]) /\
   forward self (-260) == 0 /\
   (exists r, from_x self (-260) = Ok r /\ r == 1) /\
   ~ from_x_meets_spec self (-260)) /\
  (forall (interval : Z) (xs xs' ys : list Q) (x_value : Q),
     from_x {| x_interval := interval; x_array := xs; y_array := ys |} x_value
     = from_x {| x_interval := interval; x_array := xs'; y_array := ys |} x_value).
Proof.
  assert (G : forall x0 step a b c,
            a == x0 -> b == x0 + inject_Z step * 1 -> c == x0 + inject_Z step * 2 ->
            on_grid x0 step [a; b; c]).
  { intros x0 step a b c Ha Hb Hc k Hk. cbn in Hk.
    destruct k as [|[|[|k]]]; [| | |lia]; cbn [nth].
    - rewrite Ha. change (inject_Z (Z.of_nat 0)) with 0. ring.
    - exact Hb.
    - exact Hc. }
  split; [|split; [|split]].
  - cbv zeta. split; [apply G; reflexivity|].
    split; [split; [discriminate|reflexivity]|].
    split; [reflexivity|]. split; [reflexivity|].
    split; [intros (r & Hr & _); discriminate Hr|].
    eexists. split; [reflexivity|reflexivity].
  - cbv zeta. split; [apply G; reflexivity|].
    split; [split; [discriminate|reflexivity]|].
    split; [reflexivity|]. split; [reflexivity|].
    intros (r & Hr & _). discriminate Hr.
  - cbv zeta. split; [apply G; reflexivity|].
    split; [split; [discriminate|reflexivity]|].
    split; [reflexivity|].
    split; [eexists; split; [reflexivity|reflexivity]|].
    intros (r & Hr & E). vm_compute in Hr. injection Hr as <-.
    vm_compute in E. discriminate E.
  - reflexivity.
Qed.

(** ** C2: the inverse direction *)

(** C2: for every y_value in [y[0], y[N-1]) over a strictly
    increasing y column (with an x column of the same length),
    [from_y] locates the smallest index i with y[i] > y_value and returns
    x[i-1] + x_interval / (y[i] - y[i-1]) * (y_value - y[i-1]). *)
Theorem from_y_interpolates (self : Interpolate) (y_value : Q) :
  let xs := x_array self in
  let ys := y_array self in
  let N := List.length ys in
  List.length xs = N ->
  strictly_increasing ys ->
  ys.[0] <= y_value -> y_value < ys.[N - 1] ->
  exists i : nat,
    (1 <= i < N)%nat /\
    from_y_idx self y_value = Z.of_nat i /\
    y_value < ys.[i] /\
    (forall j, (j < N)%nat -> y_value < ys.[j] -> (i <= j)%nat) /\
    exists r, from_y self y_value = Ok r /\
      r == xs.[i - 1]
           + inject_Z (x_interval self) / (ys.[i] - ys.[i - 1]) * (y_value - ys.[i - 1]).
Proof.
  intros xs ys N Hlen Hinc Hlo Hhi.
  destruct (from_y_bracket self y_value Hlen Hinc Hlo Hhi)
    as (i & Hi & Hidx & _ & Hgt & Hmin & Hr).
  exists i. split; [exact Hi|]. split; [exact Hidx|].
  split; [exact Hgt|]. split; [exact Hmin|exact Hr].
Qed.

(** The Type K interpolator at 14.798 mV meets every hypothesis of C2. *)
Lemma from_y_interpolates_witness :
  List.length (x_array (interp TypeK.tc)) = List.length (y_array (interp TypeK.tc)) /\
  strictly_increasing (y_array (interp TypeK.tc)) /\
  (y_array (interp TypeK.tc)).[0] <= 14798 # 1000 /\
  14798 # 1000 < (y_array (interp TypeK.tc)).[List.length (y_array (interp TypeK.tc)) - 1] /\
  exists i : nat,
    (1 <= i < List.length (y_array (interp TypeK.tc)))%nat /\
    from_y_idx (interp TypeK.tc) (14798 # 1000) = Z.of_nat i /\
    14798 # 1000 < (y_array (interp TypeK.tc)).[i] /\
    (forall j, (j < List.length (y_array (interp TypeK.tc)))%nat ->
       14798 # 1000 < (y_array (interp TypeK.tc)).[j] -> (i <= j)%nat) /\
    exists r, from_y (interp TypeK.tc) (14798 # 1000) = Ok r /\
      r == (x_array (interp TypeK.tc)).[i - 1]
           + inject_Z (x_interval (interp TypeK.tc))
             / ((y_array (interp TypeK.tc)).[i] - (y_array (interp TypeK.tc)).[i - 1])
             * ((14798 # 1000) - (y_array (interp TypeK.tc)).[i - 1]).
Proof.
  assert (h1 : List.length (x_array (interp TypeK.tc))
               = List.length (y_array (interp TypeK.tc))) by reflexivity.
  assert (h3 : (y_array (interp TypeK.tc)).[0] <= 14798 # 1000) by by_Qle.
  assert (h4 : 14798 # 1000
               < (y_array (interp TypeK.tc)).[List.length (y_array (interp TypeK.tc)) - 1])
    by by_Qlt.
  exact (conj h1 (conj TypeK_millivolts_increasing (conj h3 (conj h4
    (from_y_interpolates (interp TypeK.tc) (14798 # 1000)
       h1 TypeK_millivolts_increasing h3 h4))))).
Defined.

(** ** Which exceptions the interpolator can raise *)

Lemma bind_no_RangeError {A B} (m : result A) (k : A -> result B) :
  raises_RangeError m = false ->
  (forall a, raises_RangeError (k a) = false) ->
  raises_RangeError (bind m k) = false.
Proof. destruct m as [a|e]; cbn; auto. Qed.

Lemma getitem_no_RangeError {A} (a : list A) (i : Z) :
  raises_RangeError (Py.getitem a i) = false.
Proof.
  unfold Py.getitem.
  destruct (_ && _)%bool; [|reflexivity].
  destruct (nth_error _ _); reflexivity.
Qed.

Lemma floordiv_no_RangeError (a b : Q) : raises_RangeError (Py.floordiv a b) = false.
Proof. unfold Py.floordiv. destruct (Qeq_bool b 0); reflexivity. Qed.

Lemma mod_no_RangeError (a b : Q) : raises_RangeError (Py.mod_ a b) = false.
Proof. unfold Py.mod_. destruct (Qeq_bool b 0); reflexivity. Qed.

Lemma truediv_no_RangeError (a b : Q) : raises_RangeError (Py.truediv a b) = false.
Proof. unfold Py.truediv. destruct (Qeq_bool b 0); reflexivity. Qed.

Create HintDb no_range_error.
#[local] Hint Resolve getitem_no_RangeError floordiv_no_RangeError
  mod_no_RangeError truediv_no_RangeError : no_range_error.

Ltac no_RangeError :=
  repeat (apply bind_no_RangeError; [auto with no_range_error|intro]);
  try reflexivity; auto with no_range_error.

Lemma from_x_no_RangeError (self : Interpolate) (x_value : Q) :
  raises_RangeError (from_x self x_value) = false.
Proof. unfold from_x, from_x_idx. no_RangeError. Qed.

Lemma from_y_no_RangeError (self : Interpolate) (y_value : Q) :
  raises_RangeError (from_y self y_value) = false.
Proof. unfold from_y. cbv zeta. no_RangeError. Qed.

(** The two range-checked conversions, case by case. *)
Lemma degs_to_mv_in_range (self : Thermocouple) (d : Q) :
  min_degrees self <= d -> d < max_degrees self ->
  degs_to_mv self d = from_x (interp self) d.
Proof.
  intros Hlo Hhi. unfold degs_to_mv.
  rewrite (proj2 (range_check_iff _ _ _) (conj Hlo Hhi)). reflexivity.
Qed.

Lemma degs_to_mv_out_of_range (self : Thermocouple) (d : Q) :
  ~ (min_degrees self <= d /\ d < max_degrees self) ->
  degs_to_mv self d = Raise (RangeError (Py.format out_of_range d)).
Proof.
  intro H. unfold degs_to_mv.
  destruct (negb _) eqn:E; [reflexivity|].
  apply range_check_iff in E. contradiction.
Qed.

Lemma mv_to_degs_in_range (self : Thermocouple) (mv : Q) :
  min_mv self <= mv -> mv < max_mv self ->
  mv_to_degs self mv = from_y (interp self) mv.
Proof.
  intros Hlo Hhi. unfold mv_to_degs.
  rewrite (proj2 (range_check_iff _ _ _) (conj Hlo Hhi)). reflexivity.
Qed.

Lemma mv_to_degs_out_of_range (self : Thermocouple) (mv : Q) :
  ~ (min_mv self <= mv /\ mv < max_mv self) ->
  mv_to_degs self mv = Raise (RangeError (Py.format out_of_range mv)).
Proof.
  intro H. unfold mv_to_degs.
  destruct (negb _) eqn:E; [reflexivity|].
  apply range_check_iff in E. contradiction.
Qed.

Lemma in_range_dec (lo hi v : Q) : {lo <= v /\ v < hi} + {~ (lo <= v /\ v < hi)}.
Proof.
  destruct (negb (Qle_bool lo v && Py.Qlt_bool v hi)) eqn:E.
  - right. intro H. apply range_check_iff in H. congruence.
  - left. apply range_check_iff. exact E.
Qed.

Lemma format_out_of_range (v : Q) :
  Py.format out_of_range v = [Num v; Text "mV out of range."].
Proof. reflexivity. Qed.

(** ** C3: the compensated temperature *)

(** C3: for every reference temperature and junction voltage,
    [temperature] returns exactly
    mv_to_degs(degs_to_mv(reference) + junction); an exception raised
    by either stage reaches the caller as it is, and no value is returned
    with it. *)
Theorem temperature_composes (self : Thermocouple) (reference junction : Q) :
  temperature self reference junction =
    match degs_to_mv self reference with
    | Ok reference_mv => mv_to_degs self (reference_mv + junction)
    | Raise e => Raise e
    end
  /\ (forall e, degs_to_mv self reference = Raise e ->
        temperature self reference junction = Raise e)
  /\ (forall reference_mv e,
        degs_to_mv self reference = Ok reference_mv ->
        mv_to_degs self (reference_mv + junction) = Raise e ->
        temperature self reference junction = Raise e)
  /\ (forall reference_mv d,
        degs_to_mv self reference = Ok reference_mv ->
        mv_to_degs self (reference_mv + junction) = Ok d ->
        temperature self reference junction = Ok d).
Proof.
  unfold temperature.
  destruct (degs_to_mv self reference) as [mv|e] eqn:E; cbn [bind].
  - split; [reflexivity|]. split; [discriminate|].
    split; intros mv' r Hmv Hr; injection Hmv as <-; exact Hr.
  - split; [reflexivity|]. split; [intros e' He; exact He|].
    split; discriminate.
Qed.

(** The scenarios of the demo: 20 degrees with 14 mV converts, with
    60 mV the second stage raises, and 2000 degrees fails the first. *)
Lemma temperature_composes_witness :
  (exists d, temperature TypeK.tc 20 14 = Ok d /\ d == 15205 # 42) /\
  (exists v, temperature TypeK.tc 20 60
               = Raise (RangeError [Num v; Text "mV out of range."]) /\
             v == 60798 # 1000) /\
  temperature TypeK.tc 2000 14
    = Raise (RangeError [Num 2000; Text "mV out of range."]).
Proof.
  destruct (temperature_composes TypeK.tc 20 14) as (_ & _ & _ & Hok).
  destruct (temperature_composes TypeK.tc 20 60) as (_ & _ & Hsecond & _).
  destruct (temperature_composes TypeK.tc 2000 14) as (_ & Hfirst & _).
  split; [|split].
  - eexists. split; [apply (Hok (7980000000 # 10000000000)); reflexivity|reflexivity].
  - eexists. split; [apply (Hsecond (7980000000 # 10000000000)); reflexivity|reflexivity].
  - apply Hfirst. reflexivity.
Defined.

(** ** C4: the range check of degs_to_mv *)

Lemma TypeK_degs_to_mv_returns (d : Q) :
  min_degrees TypeK.tc <= d -> d < max_degrees TypeK.tc ->
  exists i : nat,
    (1 <= i < 165)%nat /\
    from_x_idx (interp TypeK.tc) d = Ok (Z.of_nat i) /\
    exists mv, degs_to_mv TypeK.tc d = Ok mv /\
      mv == (millivolts TypeK.tc).[i - 1]
            + ((millivolts TypeK.tc).[i] - (millivolts TypeK.tc).[i - 1]) / 10
              * (d - 10 * inject_Z (Qfloor (d / 10))) /\
      Z.of_nat i = (Qfloor (d / 10) + 28)%Z.
Proof.
  intros Hlo Hhi.
  destruct (from_x_grid (interp TypeK.tc) d TypeK_interval Hlo Hhi)
    as (i & Hi & Hiq & Hidx & mv & Hmv & Hval).
  exists i. split; [exact Hi|]. split; [exact Hidx|].
  exists mv. rewrite degs_to_mv_in_range by assumption.
  split; [exact Hmv|]. split; [exact Hval|exact Hiq].
Qed.

(** C4: [degs_to_mv] raises RangeError exactly when degrees lies
    outside [min_degrees, max_degrees); so it does at max_degrees and at
    min_degrees - eps for every eps > 0.  Inside the interval it returns
    what [from_x] returns, which for the Type K converter is a value; at
    min_degrees that value is the first entry of the millivolt column. *)
Theorem degs_to_mv_range_check (self : Thermocouple) (d eps : Q) :
  0 < eps ->
  (raises_RangeError (degs_to_mv self d) = true
     <-> ~ (min_degrees self <= d /\ d < max_degrees self)) /\
  (min_degrees self <= d /\ d < max_degrees self ->
     degs_to_mv self d = from_x (interp self) d) /\
  raises_RangeError (degs_to_mv self (max_degrees self)) = true /\
  raises_RangeError (degs_to_mv self (min_degrees self - eps)) = true /\
  (min_degrees TypeK.tc <= d /\ d < max_degrees TypeK.tc ->
     exists mv, degs_to_mv TypeK.tc d = Ok mv) /\
  (exists mv, degs_to_mv TypeK.tc (min_degrees TypeK.tc) = Ok mv /\
     from_x (interp TypeK.tc) (min_degrees TypeK.tc) = Ok mv /\
     mv == (millivolts TypeK.tc).[0]).
Proof.
  intro Heps.
  split; [|split; [|split; [|split; [|split]]]].
  - split.
    + intros Hraise Hin. destruct Hin as [Hlo Hhi].
      rewrite (degs_to_mv_in_range self d Hlo Hhi) in Hraise.
      rewrite from_x_no_RangeError in Hraise. discriminate.
    + intro Hout. rewrite (degs_to_mv_out_of_range self d Hout). reflexivity.
  - intros [Hlo Hhi]. apply degs_to_mv_in_range; assumption.
  - rewrite degs_to_mv_out_of_range; [reflexivity|].
    intros [_ Hlt]. exact (Qlt_irrefl _ Hlt).
  - rewrite degs_to_mv_out_of_range; [reflexivity|].
    intros [Hle _]. apply (Qlt_not_le _ _ Heps).
    setoid_replace eps with (min_degrees self - (min_degrees self - eps)) by ring.
    setoid_replace 0 with (min_degrees self - min_degrees self) by ring.
    apply Qplus_le_r. apply Qopp_le_compat. exact Hle.
  - intros [Hlo Hhi].
    destruct (TypeK_degs_to_mv_returns d Hlo Hhi) as (_ & _ & _ & mv & Hmv & _).
    exists mv. exact Hmv.
  - eexists. split; [reflexivity|]. split; reflexivity.
Qed.

(** The Type K converter at 20 degrees, with eps = 1. *)
Lemma degs_to_mv_range_check_witness :
  0 < 1 /\
  (raises_RangeError (degs_to_mv TypeK.tc 20) = true
     <-> ~ (min_degrees TypeK.tc <= 20 /\ 20 < max_degrees TypeK.tc)) /\
  raises_RangeError (degs_to_mv TypeK.tc (max_degrees TypeK.tc)) = true /\
  raises_RangeError (degs_to_mv TypeK.tc (min_degrees TypeK.tc - 1)) = true.
Proof.
  assert (h : 0 < 1) by reflexivity.
  destruct (degs_to_mv_range_check TypeK.tc 20 1 h) as (H1 & _ & H3 & H4 & _).
  exact (conj h (conj H1 (conj H3 H4))).
Defined.

(** ** C6: the declared bounds against the table *)

(** C6 fails for max_mv.  Three of the four declared bounds are the
    first or last entry of their column; max_mv is 54.818 while the last
    entry of the millivolt column is 54.819.  So 54.8185 mV, a value
    inside the table, is refused by [mv_to_degs]. *)
Theorem TypeK_max_mv_below_table :
  min_degrees TypeK.tc == (degrees TypeK.tc).[0] /\
  max_degrees TypeK.tc == (degrees TypeK.tc).[List.length (degrees TypeK.tc) - 1] /\
  min_mv TypeK.tc == (millivolts TypeK.tc).[0] /\
  max_mv TypeK.tc == 54818 # 1000 /\
  (millivolts TypeK.tc).[List.length (millivolts TypeK.tc) - 1] == 54819 # 1000 /\
  ~ max_mv TypeK.tc == (millivolts TypeK.tc).[List.length (millivolts TypeK.tc) - 1] /\
  (millivolts TypeK.tc).[0] <= 548185 # 10000 /\
  548185 # 10000 < (millivolts TypeK.tc).[List.length (millivolts TypeK.tc) - 1] /\
  mv_to_degs TypeK.tc (548185 # 10000)
    = Raise (RangeError [Num (548185 # 10000); Text "mV out of range."]).
Proof.
  repeat split; try reflexivity; try discriminate.
Qed.

(** ** C5: the round trip *)

(** Below max_mv the round trip is exact: what [degs_to_mv] returns
    for a temperature of the Type K domain converts back to that
    temperature, provided it passes the range check of [mv_to_degs]. *)
Lemma TypeK_round_trip_below_max_mv (d : Q) :
  min_degrees TypeK.tc <= d -> d < max_degrees TypeK.tc ->
  exists mv, degs_to_mv TypeK.tc d = Ok mv /\
    (mv < max_mv TypeK.tc ->
     exists d', mv_to_degs TypeK.tc mv = Ok d' /\ d' == d).
Proof.
  intros Hlo Hhi.
  destruct (TypeK_degs_to_mv_returns d Hlo Hhi)
    as (i & Hi & _ & mv & Hmv & Hval & Hiq).
  exists mv. split; [exact Hmv|]. intro Hmax.
  set (ys := millivolts TypeK.tc) in *.
  set (off := d - 10 * inject_Z (Qfloor (d / 10))) in *.
  assert (Hoff0 : 0 <= off).
  { unfold off, Qminus. rewrite <- Qle_minus_iff.
    apply Qle_trans with (10 * (d / 10)).
    - apply Qmult_le_l; [reflexivity|apply Qfloor_le].
    - setoid_replace (10 * (d / 10)) with d by field. apply Qle_refl. }
  assert (Hoff1 : off < 10).
  { unfold off. apply Qlt_minus_iff.
    setoid_replace (10 + - (d - 10 * inject_Z (Qfloor (d / 10))))
      with (10 * (inject_Z (Qfloor (d / 10) + 1) - d / 10))
      by (rewrite inject_Z_plus; change (inject_Z 1) with 1; field).
    apply Qmult_lt_0_compat; [reflexivity|].
    unfold Qminus. rewrite <- Qlt_minus_iff. apply Qlt_floor. }
  assert (Hgap : ys.[i - 1] < ys.[i]).
  { apply TypeK_millivolts_increasing. rewrite TypeK_length_millivolts. lia. }
  assert (Hgap0 : 0 < ys.[i] - ys.[i - 1]) by (unfold Qminus; rewrite <- Qlt_minus_iff; exact Hgap).
  assert (Hnz : ~ ys.[i] - ys.[i - 1] == 0).
  { intro E. rewrite E in Hgap0. exact (Qlt_irrefl _ Hgap0). }
  assert (Hmv1 : ys.[i - 1] <= mv).
  { rewrite Hval. rewrite <- (Qplus_0_r (ys.[i - 1])) at 1.
    apply Qplus_le_r. apply Qmult_le_0_compat; [|exact Hoff0].
    apply Qle_shift_div_l; [reflexivity|].
    rewrite Qmult_0_l. apply Qlt_le_weak. exact Hgap0. }
  assert (Hmv2 : mv < ys.[i]).
  { rewrite Hval. apply Qlt_minus_iff.
    setoid_replace (ys.[i] + - (ys.[i - 1] + (ys.[i] - ys.[i - 1]) / 10 * off))
      with ((ys.[i] - ys.[i - 1]) / 10 * (10 - off)) by field.
    apply Qmult_lt_0_compat.
    - apply Qlt_shift_div_l; [reflexivity|]. rewrite Qmult_0_l. exact Hgap0.
    - unfold Qminus. rewrite <- Qlt_minus_iff. exact Hoff1. }
  assert (Hmin : min_mv TypeK.tc <= mv).
  { eapply Qle_trans; [|exact Hmv1].
    change (min_mv TypeK.tc) with (ys.[0]).
    apply (strictly_increasing_sorted _ TypeK_millivolts_increasing).
    rewrite TypeK_length_millivolts. lia. }
  rewrite (mv_to_degs_in_range TypeK.tc mv Hmin Hmax).
  destruct (from_y_bracket (interp TypeK.tc) mv) as
    (i' & Hi' & _ & Hlow' & Hup' & Hleast & d' & Hd' & Hval').
  - reflexivity.
  - exact TypeK_millivolts_increasing.
  - exact Hmin.
  - eapply Qlt_le_trans; [exact Hmv2|].
    apply (strictly_increasing_sorted _ TypeK_millivolts_increasing).
    change (y_array (interp TypeK.tc)) with ys.
    unfold ys. rewrite TypeK_length_millivolts. lia.
  - change (y_array (interp TypeK.tc)) with ys in *.
    change (x_array (interp TypeK.tc)) with (degrees TypeK.tc) in *.
    unfold ys in Hi', Hleast. rewrite TypeK_length_millivolts in Hi', Hleast.
    fold ys in Hleast.
    assert (Hii : i' = i).
    { assert (i' <= i)%nat by (apply Hleast; [lia|exact Hmv2]).
      destruct (Nat.eq_dec i' i) as [|Hne]; [assumption|]. exfalso.
      apply (Qlt_not_le _ _ Hup'). eapply Qle_trans; [|exact Hmv1].
      apply (strictly_increasing_sorted _ TypeK_millivolts_increasing).
      fold ys. unfold ys. rewrite TypeK_length_millivolts. lia. }
    subst i'. exists d'. split; [exact Hd'|].
    rewrite Hval'. rewrite TypeK_degrees_nth by lia.
    change (inject_Z (x_interval (interp TypeK.tc))) with 10.
    setoid_replace (mv - ys.[i - 1]) with ((ys.[i] - ys.[i - 1]) / 10 * off)
      by (rewrite Hval; ring).
    replace (-270 + 10 * Z.of_nat (i - 1))%Z with (10 * Qfloor (d / 10))%Z by lia.
    rewrite inject_Z_mult. change (inject_Z 10) with 10.
    unfold off. field. exact Hnz.
Qed.

(** C5 fails next to the upper bound.  For 1369.98 degrees, strictly
    inside (min_degrees, max_degrees), [degs_to_mv] returns 54.81832 mV;
    this is below the table's last entry 54.819 but not below
    max_mv = 54.818, so [mv_to_degs] raises RangeError. *)
Theorem TypeK_round_trip_fails_near_max :
  min_degrees TypeK.tc < 136998 # 100 /\
  136998 # 100 < max_degrees TypeK.tc /\
  exists mv,
    degs_to_mv TypeK.tc (136998 # 100) = Ok mv /\
    mv == 5481832 # 100000 /\
    mv_to_degs TypeK.tc mv = Raise (RangeError [Num mv; Text "mV out of range."]) /\
    temperature TypeK.tc (136998 # 100) 0 = mv_to_degs TypeK.tc (mv + 0).
Proof.
  split; [reflexivity|]. split; [reflexivity|].
  eexists. split; [reflexivity|]. split; [reflexivity|]. split; reflexivity.
Qed.

(** ** C7: the shape of the Type K table *)

(** C7 as stated fails on the count: both columns have 165 entries,
    not 154. *)
Lemma TypeK_table_is_not_154_points :
  List.length (degrees TypeK.tc) = 165%nat /\
  List.length (millivolts TypeK.tc) = 165%nat /\
  List.length (degrees TypeK.tc) <> 154%nat.
Proof. split; [reflexivity|]. split; [reflexivity|]. discriminate. Qed.

(** C7 (amended): the Type K table covers -270 through 1370 degrees
    at a constant 10-degree step, which gives 165 sample points; the
    millivolt column has the same length as the degrees column and is
    strictly increasing throughout. *)
Theorem TypeK_table_shape :
  TypeK.degrees = map (fun k => (-270 + 10 * Z.of_nat k)%Z) (seq 0 165) /\
  (degrees TypeK.tc).[0] == -270 /\
  (degrees TypeK.tc).[List.length (degrees TypeK.tc) - 1] == 1370 /\
  on_grid (-270) 10 (degrees TypeK.tc) /\
  List.length (degrees TypeK.tc) = 165%nat /\
  List.length (millivolts TypeK.tc) = List.length (degrees TypeK.tc) /\
  strictly_increasing (millivolts TypeK.tc).
Proof.
  split; [reflexivity|]. split; [reflexivity|]. split; [reflexivity|].
  split; [exact TypeK_on_grid|]. split; [reflexivity|]. split; [reflexivity|].
  exact TypeK_millivolts_increasing.
Qed.

(** Two rows of the table read through C7: the step between rows 3
    and 4, and the order of their millivolt entries. *)
Lemma TypeK_table_shape_witness :
  (4 < List.length (degrees TypeK.tc))%nat /\
  (degrees TypeK.tc).[4] == -270 + inject_Z 10 * inject_Z (Z.of_nat 4) /\
  (3 < 4 < List.length (millivolts TypeK.tc))%nat /\
  (millivolts TypeK.tc).[3] < (millivolts TypeK.tc).[4].
Proof.
  destruct TypeK_table_shape as (_ & _ & _ & Hgrid & _ & _ & Hinc).
  assert (h1 : (4 < List.length (degrees TypeK.tc))%nat) by (vm_compute; lia).
  assert (h2 : (3 < 4 < List.length (millivolts TypeK.tc))%nat) by (vm_compute; lia).
  exact (conj h1 (conj (Hgrid 4%nat h1) (conj h2 (Hinc 3%nat 4%nat h2)))).
Defined.

(** ** C8: a millivolt value that equals a table entry *)

(** The inverse lookup at a sample point: where it lands and what it
    returns. *)
Lemma from_y_at_sample (self : Interpolate) (i : nat) :
  let xs := x_array self in
  let ys := y_array self in
  List.length xs = List.length ys ->
  strictly_increasing ys ->
  (i + 1 < List.length ys)%nat ->
  from_y_idx self ys.[i] = Z.of_nat (i + 1) /\
  exists r, from_y self ys.[i] = Ok r /\ r == xs.[i].
Proof.
  intros xs ys Hlen Hinc Hi.
  assert (Hsorted := strictly_increasing_sorted _ Hinc).
  destruct (from_y_bracket self ys.[i] Hlen Hinc) as
    (k & Hk & Hidx & Hlow & Hup & Hleast & r & Hr & Hval).
  - apply Hsorted. fold ys. lia.
  - apply Hinc. fold ys. lia.
  - fold ys in Hk, Hlow, Hup, Hleast, Hval. fold xs in Hval.
    assert (Hki : k = (i + 1)%nat).
    { assert (k <= i + 1)%nat by (apply Hleast; [lia|apply Hinc; lia]).
      destruct (Nat.le_gt_cases k i) as [Hle|]; [|lia]. exfalso.
      apply (Qlt_not_le _ _ Hup). apply Hsorted. lia. }
    subst k. split; [exact Hidx|].
    exists r. split; [exact Hr|].
    rewrite Hval. replace (i + 1 - 1)%nat with i by lia.
    setoid_replace (ys.[i] - ys.[i]) with 0 by ring. ring.
Qed.

(** C8 as stated fails: at the table entry 0.000 mV (row 27) the
    lookup does resolve to the segment that starts there, and it returns
    0 degrees, which is x[27]; the same holds at each of the 164 entries
    that pass the range check. *)
Lemma inverse_exact_counterexample :
  min_mv TypeK.tc <= (millivolts TypeK.tc).[27] /\
  (millivolts TypeK.tc).[27] < max_mv TypeK.tc /\
  from_y_idx (interp TypeK.tc) (millivolts TypeK.tc).[27] = 28%Z /\
  (exists r, mv_to_degs TypeK.tc (millivolts TypeK.tc).[27] = Ok r /\
             r == (degrees TypeK.tc).[27] /\ r == 0) /\
  ~ inverse_inexact_at TypeK.tc 27 /\
  forallb (inverse_exactb TypeK.tc) (seq 0 164) = true.
Proof.
  split; [discriminate|]. split; [reflexivity|]. split; [reflexivity|].
  split; [eexists; split; [reflexivity|split; reflexivity]|].
  split; [|vm_compute; reflexivity].
  intros [_ Hne]. apply Hne. eexists. split; reflexivity.
Qed.

(** C8 (amended): when an in-domain y_value equals a table entry
    y[i], the inverse lookup resolves to the segment whose lower endpoint
    is that entry (the index found is i + 1), the offset into the segment
    is zero, and mv_to_degs(y[i]) equals x[i]. *)
Theorem mv_to_degs_exact_at_samples (self : Thermocouple) (i : nat) :
  List.length (degrees self) = List.length (millivolts self) ->
  strictly_increasing (millivolts self) ->
  (i + 1 < List.length (millivolts self))%nat ->
  min_mv self <= (millivolts self).[i] ->
  (millivolts self).[i] < max_mv self ->
  from_y_idx (interp self) (millivolts self).[i] = Z.of_nat (i + 1) /\
  exists r, mv_to_degs self (millivolts self).[i] = Ok r /\ r == (degrees self).[i].
Proof.
  intros Hlen Hinc Hi Hlo Hhi.
  rewrite (mv_to_degs_in_range self _ Hlo Hhi).
  exact (from_y_at_sample (interp self) i Hlen Hinc Hi).
Qed.

(** The Type K converter at row 29 (0.798 mV, 20 degrees). *)
Lemma mv_to_degs_exact_at_samples_witness :
  List.length (degrees TypeK.tc) = List.length (millivolts TypeK.tc) /\
  strictly_increasing (millivolts TypeK.tc) /\
  (29 + 1 < List.length (millivolts TypeK.tc))%nat /\
  min_mv TypeK.tc <= (millivolts TypeK.tc).[29] /\
  (millivolts TypeK.tc).[29] < max_mv TypeK.tc /\
  from_y_idx (interp TypeK.tc) (millivolts TypeK.tc).[29] = Z.of_nat (29 + 1) /\
  exists r, mv_to_degs TypeK.tc (millivolts TypeK.tc).[29] = Ok r /\
            r == (degrees TypeK.tc).[29].
Proof.
  assert (h1 : List.length (degrees TypeK.tc) = List.length (millivolts TypeK.tc))
    by reflexivity.
  assert (h3 : (29 + 1 < List.length (millivolts TypeK.tc))%nat) by (vm_compute; lia).
  assert (h4 : min_mv TypeK.tc <= (millivolts TypeK.tc).[29]) by by_Qle.
  assert (h5 : (millivolts TypeK.tc).[29] < max_mv TypeK.tc) by by_Qlt.
  exact (conj h1 (conj TypeK_millivolts_increasing (conj h3 (conj h4 (conj h5
    (mv_to_degs_exact_at_samples TypeK.tc 29 h1 TypeK_millivolts_increasing h3 h4 h5)))))).
Defined.

(** ** C9: what a RangeError carries *)

(** C9 as stated fails for [mv_to_degs] alone.  On the Type K converter
    -10 mV is below the lower bound and 60 mV is not below the upper
    bound; the two errors differ in the value they carry and in nothing
    else, so the text of the message names no bound.  Nor can the bound be
    told from the exception with its value: 55 mV is rejected by the
    Type K converter at its upper bound and by a converter whose range
    starts at 60 mV at its lower bound, with the very same exception. *)
Lemma RangeError_bound_not_indicated :
  mv_to_degs TypeK.tc (-10) = Raise (RangeError [Num (-10); Text "mV out of range."]) /\
  violated (min_mv TypeK.tc) (max_mv TypeK.tc) (-10) = Some LowerBound /\
  mv_to_degs TypeK.tc 60 = Raise (RangeError [Num 60; Text "mV out of range."]) /\
  violated (min_mv TypeK.tc) (max_mv TypeK.tc) 60 = Some UpperBound /\
  ~ RangeError_names_bound TypeK.tc /\
  mv_to_degs TypeK.tc 55 = Raise (RangeError [Num 55; Text "mV out of range."]) /\
  violated (min_mv TypeK.tc) (max_mv TypeK.tc) 55 = Some UpperBound /\
  mv_to_degs high_range 55 = Raise (RangeError [Num 55; Text "mV out of range."]) /\
  violated (min_mv high_range) (max_mv high_range) 55 = Some LowerBound /\
  ~ RangeError_indicates_bound.
Proof.
  split; [reflexivity|]. split; [reflexivity|].
  split; [reflexivity|]. split; [reflexivity|].
  split.
  { intros (decode & _ & Hm).
    pose proof (Hm (-10) [Num (-10); Text "mV out of range."] eq_refl) as Hlow.
    pose proof (Hm 60 [Num 60; Text "mV out of range."] eq_refl) as Hup.
    change (decode ["mV out of range."%string] = Some (MillivoltsAxis, LowerBound)) in Hlow.
    change (decode ["mV out of range."%string] = Some (MillivoltsAxis, UpperBound)) in Hup.
    rewrite Hlow in Hup. discriminate Hup. }
  split; [reflexivity|]. split; [reflexivity|].
  split; [reflexivity|]. split; [reflexivity|].
  intros (decode & H).
  destruct (H TypeK.tc) as (_ & Hk). destruct (H high_range) as (_ & Hh).
  pose proof (Hk 55 [Num 55; Text "mV out of range."] eq_refl) as Hup.
  pose proof (Hh 55 [Num 55; Text "mV out of range."] eq_refl) as Hlow.
  change (decode (RangeError [Num 55; Text "mV out of range."])
          = Some (MillivoltsAxis, UpperBound)) in Hup.
  change (decode (RangeError [Num 55; Text "mV out of range."])
          = Some (MillivoltsAxis, LowerBound)) in Hlow.
  rewrite Hup in Hlow. discriminate Hlow.
Qed.

(** C9 (amended): a RangeError raised by [degs_to_mv] or [mv_to_degs]
    carries the offending input value and nothing else: its message is
    that value followed by one fixed text, whichever bound was violated,
    so the error does not record the bound.  It is raised exactly when
    the value is below the lower bound or not below the upper bound of
    the queried axis. *)
Theorem RangeError_carries_only_value (self : Thermocouple) (v : Q) (m : message) :
  (degs_to_mv self v = Raise (RangeError m) <->
     m = [Num v; Text "mV out of range."] /\
     (v < min_degrees self \/ max_degrees self <= v)) /\
  (mv_to_degs self v = Raise (RangeError m) <->
     m = [Num v; Text "mV out of range."] /\
     (v < min_mv self \/ max_mv self <= v)).
Proof.
  assert (Hside : forall lo hi : Q,
            ~ (lo <= v /\ v < hi) <-> (v < lo \/ hi <= v)).
  { intros lo hi. split.
    - intro Hout. destruct (Qlt_le_dec v lo) as [|Hge]; [left; assumption|].
      right. apply Qnot_lt_le. intro Hlt. apply Hout. split; assumption.
    - intros [Hlt|Hge] [Hlo Hhi].
      + exact (Qlt_not_le _ _ Hlt Hlo).
      + exact (Qlt_not_le _ _ Hhi Hge). }
  split; split.
  - intro H.
    destruct (in_range_dec (min_degrees self) (max_degrees self) v) as [[Hlo Hhi]|Hout].
    + rewrite (degs_to_mv_in_range self v Hlo Hhi) in H.
      pose proof (from_x_no_RangeError (interp self) v) as Hno.
      rewrite H in Hno. discriminate Hno.
    + rewrite (degs_to_mv_out_of_range self v Hout) in H.
      injection H as <-. split; [reflexivity|]. apply Hside. exact Hout.
  - intros [-> Hout]. apply Hside in Hout.
    rewrite (degs_to_mv_out_of_range self v Hout). reflexivity.
  - intro H.
    destruct (in_range_dec (min_mv self) (max_mv self) v) as [[Hlo Hhi]|Hout].
    + rewrite (mv_to_degs_in_range self v Hlo Hhi) in H.
      pose proof (from_y_no_RangeError (interp self) v) as Hno.
      rewrite H in Hno. discriminate Hno.
    + rewrite (mv_to_degs_out_of_range self v Hout) in H.
      injection H as <-. split; [reflexivity|]. apply Hside. exact Hout.
  - intros [-> Hout]. apply Hside in Hout.
    rewrite (mv_to_degs_out_of_range self v Hout). reflexivity.
Qed.

(** The Type K converter refusing 60 mV. *)
Lemma RangeError_carries_only_value_witness :
  mv_to_degs TypeK.tc 60 = Raise (RangeError [Num 60; Text "mV out of range."]) /\
  [Num 60; Text "mV out of range."] = [Num 60; Text "mV out of range."] /\
  (60 < min_mv TypeK.tc \/ max_mv TypeK.tc <= 60).
Proof.
  assert (h : mv_to_degs TypeK.tc 60
              = Raise (RangeError [Num 60; Text "mV out of range."])) by reflexivity.
  exact (conj h (proj1 (proj2 (RangeError_carries_only_value TypeK.tc 60 _)) h)).
Defined.

(** ** C10: indices and divisors inside the domain *)

(** C10: for every degrees value and every millivolt value that the
    range checks of the Type K converter accept, the index idx computed
    by the interpolation routine satisfies 1 <= idx <= N - 1, so idx - 1
    and idx both lie in 0..N-1; the divisors, x_interval = 10 and
    y[idx] - y[idx-1], are not zero; and the routine returns a value
    (no IndexError, no ZeroDivisionError). *)
Theorem TypeK_interpolation_safe (degs mv : Q) :
  min_degrees TypeK.tc <= degs -> degs < max_degrees TypeK.tc ->
  min_mv TypeK.tc <= mv -> mv < max_mv TypeK.tc ->
  let self := interp TypeK.tc in
  let N := Z.of_nat (List.length (y_array self)) in
  (exists idx, from_x_idx self degs = Ok idx /\
     (0 <= idx - 1 /\ idx <= N - 1)%Z /\
     ~ inject_Z (x_interval self) == 0 /\
     exists y, from_x self degs = Ok y /\ degs_to_mv TypeK.tc degs = Ok y) /\
  (let idx := from_y_idx self mv in
   (0 <= idx - 1 /\ idx <= N - 1)%Z /\
   Z.of_nat (List.length (x_array self)) = N /\
   0 < (y_array self).[Z.to_nat idx] - (y_array self).[Z.to_nat (idx - 1)] /\
   exists x, from_y self mv = Ok x /\ mv_to_degs TypeK.tc mv = Ok x).
Proof.
  intros Hdlo Hdhi Hmlo Hmhi self N. split.
  - destruct (TypeK_degs_to_mv_returns degs Hdlo Hdhi)
      as (i & Hi & Hidx & y & Hy & _).
    exists (Z.of_nat i). split; [exact Hidx|].
    split; [change N with 165%Z; lia|].
    split; [exact ten_nonzero|].
    exists y. split; [|exact Hy].
    pose proof Hy as Hy'.
    rewrite (degs_to_mv_in_range TypeK.tc degs Hdlo Hdhi) in Hy'. exact Hy'.
  - destruct (from_y_bracket self mv) as (i & Hi & Hidx & _ & _ & _ & x & Hx & _).
    + reflexivity.
    + exact TypeK_millivolts_increasing.
    + exact Hmlo.
    + eapply Qlt_trans; [exact Hmhi|]. reflexivity.
    + cbv zeta. rewrite Hidx.
      change (List.length (y_array self)) with 165%nat in Hi.
      split; [change N with 165%Z; lia|].
      split; [reflexivity|].
      split.
      * replace (Z.of_nat i - 1)%Z with (Z.of_nat (i - 1)) by lia.
        rewrite !Nat2Z.id. unfold Qminus. rewrite <- Qlt_minus_iff.
        apply TypeK_millivolts_increasing. rewrite TypeK_length_millivolts. lia.
      * exists x. split; [exact Hx|].
        rewrite (mv_to_degs_in_range TypeK.tc mv Hmlo Hmhi). exact Hx.
Qed.

(** The Type K converter at 20 degrees and at 14.798 mV. *)
Lemma TypeK_interpolation_safe_witness :
  min_degrees TypeK.tc <= 20 /\ 20 < max_degrees TypeK.tc /\
  min_mv TypeK.tc <= 14798 # 1000 /\ 14798 # 1000 < max_mv TypeK.tc /\
  (exists idx, from_x_idx (interp TypeK.tc) 20 = Ok idx /\
     (0 <= idx - 1 /\ idx <= Z.of_nat (List.length (y_array (interp TypeK.tc))) - 1)%Z /\
     ~ inject_Z (x_interval (interp TypeK.tc)) == 0 /\
     exists y, from_x (interp TypeK.tc) 20 = Ok y /\ degs_to_mv TypeK.tc 20 = Ok y).
Proof.
  assert (h1 : min_degrees TypeK.tc <= 20) by by_Qle.
  assert (h2 : 20 < max_degrees TypeK.tc) by by_Qlt.
  assert (h3 : min_mv TypeK.tc <= 14798 # 1000) by by_Qle.
  assert (h4 : 14798 # 1000 < max_mv TypeK.tc) by by_Qlt.
  exact (conj h1 (conj h2 (conj h3 (conj h4
    (proj1 (TypeK_interpolation_safe 20 (14798 # 1000) h1 h2 h3 h4)))))).
Defined.

(** * Further properties of the code *)

(** ** Segments of the table *)

Lemma Qfloor_unique (x : Q) (n : Z) :
  inject_Z n <= x -> x < inject_Z (n + 1) -> Qfloor x = n.
Proof.
  intros Hlo Hhi.
  assert (H1 : (n <= Qfloor x)%Z).
  { rewrite <- (Qfloor_Z n). apply Qfloor_resp_le. exact Hlo. }
  assert (H2 : (Qfloor x < n + 1)%Z).
  { rewrite Zlt_Qlt. eapply Qle_lt_trans; [apply Qfloor_le|exact Hhi]. }
  lia.
Qed.

Lemma Qlt_gap_nonzero (a b : Q) : a < b -> ~ b - a == 0.
Proof.
  intros Hlt E. apply (Qlt_irrefl a).
  setoid_replace a with (b - (b - a)) at 2 by ring.
  rewrite E. setoid_replace (b - 0) with b by ring. exact Hlt.
Qed.

(** [from_x] on the segment that starts at row [k] of the grid
    -270, -260, ...: the blend of rows [k] and [k + 1]. *)
Lemma from_x_segment (self : Interpolate) (k : nat) (x_value : Q) :
  let ys := y_array self in
  x_interval self = 10%Z ->
  (k + 1 < List.length ys)%nat ->
  inject_Z (-270 + 10 * Z.of_nat k) <= x_value ->
  x_value < inject_Z (-270 + 10 * (Z.of_nat k + 1)) ->
  from_x_idx self x_value = Ok (Z.of_nat (k + 1)) /\
  exists r, from_x self x_value = Ok r /\
    r == ys.[k] + (ys.[k + 1] - ys.[k]) / 10
                  * (x_value - inject_Z (-270 + 10 * Z.of_nat k)).
Proof.
  intros ys Hiv Hk Hlo Hhi.
  assert (Hq : Qfloor (x_value / 10) = (Z.of_nat k - 27)%Z).
  { apply Qfloor_unique.
    - apply Qle_shift_div_l; [reflexivity|].
      eapply Qle_trans; [|exact Hlo].
      change 10 with (inject_Z 10). rewrite <- inject_Z_mult.
      rewrite <- Zle_Qle. lia.
    - apply Qlt_shift_div_r; [reflexivity|].
      eapply Qlt_le_trans; [exact Hhi|].
      change 10 with (inject_Z 10). rewrite <- inject_Z_mult.
      rewrite <- Zle_Qle. lia. }
  destruct (from_x_grid self x_value Hiv) as (i & Hi & Hiq & Hidx & r & Hr & Hval).
  - eapply Qle_trans; [|exact Hlo]. change (-270) with (inject_Z (-270)).
    rewrite <- Zle_Qle. lia.
  - eapply Qlt_le_trans; [exact Hhi|]. rewrite <- Zle_Qle. fold ys. lia.
  - fold ys in Hi, Hval. rewrite Hq in Hiq, Hval.
    assert (Hik : i = (k + 1)%nat) by lia. subst i.
    split; [exact Hidx|]. exists r. split; [exact Hr|].
    rewrite Hval. replace (k + 1 - 1)%nat with k by lia.
    replace (-270 + 10 * Z.of_nat k)%Z with (10 * (Z.of_nat k - 27))%Z by lia.
    rewrite inject_Z_mult. change (inject_Z 10) with 10. reflexivity.
Qed.

(** [from_y] on the segment that starts at row [k] of a sorted y
    column: the blend of rows [k] and [k + 1]. *)
Lemma from_y_segment (self : Interpolate) (k : nat) (y_value : Q) :
  let xs := x_array self in
  let ys := y_array self in
  List.length xs = List.length ys ->
  sorted ys ->
  (k + 1 < List.length ys)%nat ->
  ys.[k] <= y_value -> y_value < ys.[k + 1] ->
  from_y_idx self y_value = Z.of_nat (k + 1) /\
  exists r, from_y self y_value = Ok r /\
    r == xs.[k] + inject_Z (x_interval self) / (ys.[k + 1] - ys.[k]) * (y_value - ys.[k]).
Proof.
  intros xs ys Hlen Hs Hk Hlo Hhi.
  destruct (bisect_spec ys y_value Hs) as (r & Hr & HrN & Hbelow & Habove).
  assert (Hrk : r = (k + 1)%nat).
  { destruct (Nat.lt_trichotomy r (k + 1)) as [Hlt|[Heq|Hgt]]; [|exact Heq|].
    - exfalso. apply (Qlt_not_le _ _ (Habove k ltac:(lia)) Hlo).
    - exfalso. apply (Qlt_not_le _ _ Hhi). apply Hbelow. lia. }
  subst r.
  assert (Hidx : from_y_idx self y_value = Z.of_nat (k + 1)) by exact Hr.
  split; [exact Hidx|].
  unfold from_y. rewrite Hidx. fold xs ys.
  replace (Z.of_nat (k + 1) - 1)%Z with (Z.of_nat k) by lia.
  rewrite (getitem_nat xs k 0) by lia.
  rewrite (getitem_nat ys k 0) by lia.
  rewrite (getitem_nat ys (k + 1) 0) by lia.
  cbn [bind].
  rewrite truediv_nonzero
    by (apply Qlt_gap_nonzero; eapply Qle_lt_trans; [exact Hlo|exact Hhi]).
  cbn [bind]. eexists. split; [reflexivity|]. ring.
Qed.

(** Where a linear blend lies between its endpoints. *)
Lemma blend_bounds (a b w t : Q) :
  a < b -> 0 < w -> 0 <= t -> t < w ->
  a <= a + (b - a) / w * t /\ a + (b - a) / w * t < b.
Proof.
  intros Hab Hw Ht0 Htw.
  assert (Hgap : 0 < b - a) by (unfold Qminus; rewrite <- Qlt_minus_iff; exact Hab).
  assert (Hslope : 0 < (b - a) / w).
  { apply Qlt_shift_div_l; [exact Hw|]. rewrite Qmult_0_l. exact Hgap. }
  split.
  - rewrite <- (Qplus_0_r a) at 1. apply Qplus_le_r.
    apply Qmult_le_0_compat; [apply Qlt_le_weak; exact Hslope|exact Ht0].
  - apply Qlt_minus_iff.
    setoid_replace (b + - (a + (b - a) / w * t)) with ((b - a) / w * (w - t)).
    + apply Qmult_lt_0_compat; [exact Hslope|].
      unfold Qminus. rewrite <- Qlt_minus_iff. exact Htw.
    + field. intro E. rewrite E in Hw. exact (Qlt_irrefl _ Hw).
Qed.

(** A blend grows with its parameter. *)
Lemma grid_segment (N : nat) (x : Q) :
  -270 <= x -> x < inject_Z (10 * (Z.of_nat N - 28)) ->
  exists k : nat,
    (k + 1 < N)%nat /\
    inject_Z (-270 + 10 * Z.of_nat k) <= x /\
    x < inject_Z (-270 + 10 * (Z.of_nat k + 1)).
Proof.
  intros Hlo Hhi.
  set (q := Qfloor (x / 10)).
  assert (Hq1 : inject_Z (10 * q) <= x).
  { rewrite inject_Z_mult. change (inject_Z 10) with 10.
    apply Qle_trans with (10 * (x / 10)).
    - apply Qmult_le_l; [reflexivity|apply Qfloor_le].
    - setoid_replace (10 * (x / 10)) with x by field. apply Qle_refl. }
  assert (Hq2 : x < inject_Z (10 * (q + 1))).
  { rewrite inject_Z_mult. change (inject_Z 10) with 10.
    apply Qle_lt_trans with (10 * (x / 10)).
    - setoid_replace (10 * (x / 10)) with x by field. apply Qle_refl.
    - apply Qmult_lt_l; [reflexivity|apply Qlt_floor]. }
  assert (Hq3 : (-27 <= q)%Z).
  { assert (H : inject_Z (-270) < inject_Z (10 * (q + 1)))
      by (eapply Qle_lt_trans; [exact Hlo|exact Hq2]).
    rewrite <- Zlt_Qlt in H. lia. }
  assert (Hq4 : (q < Z.of_nat N - 28)%Z).
  { assert (H : inject_Z (10 * q) < inject_Z (10 * (Z.of_nat N - 28)))
      by (eapply Qle_lt_trans; [exact Hq1|exact Hhi]).
    rewrite <- Zlt_Qlt in H. lia. }
  exists (Z.to_nat (q + 27)).
  replace (Z.of_nat (Z.to_nat (q + 27))) with (q + 27)%Z by lia.
  split; [lia|]. split.
  - replace (-270 + 10 * (q + 27))%Z with (10 * q)%Z by lia. exact Hq1.
  - replace (-270 + 10 * (q + 27 + 1))%Z with (10 * (q + 1))%Z by lia. exact Hq2.
Qed.

(** Every point of [y[0], y[N-1]) lies on one segment of a sorted
    column. *)
Lemma column_segment (ys : list Q) (v : Q) :
  sorted ys ->
  ys.[0] <= v -> v < ys.[List.length ys - 1] ->
  exists k : nat,
    (k + 1 < List.length ys)%nat /\ ys.[k] <= v /\ v < ys.[k + 1].
Proof.
  intros Hs Hlo Hhi.
  destruct (bisect_spec ys v Hs) as (r & _ & HrN & Hbelow & Habove).
  assert (HN : (1 <= List.length ys)%nat).
  { destruct ys; [|cbn; lia]. cbn in Hlo, Hhi. exfalso. exact (Qlt_not_le _ _ Hhi Hlo). }
  assert (Hr1 : (1 <= r)%nat).
  { destruct r; [|lia]. exfalso.
    apply (Qlt_not_le _ _ (Habove 0%nat ltac:(lia)) Hlo). }
  assert (Hr2 : (r < List.length ys)%nat).
  { destruct (Nat.eq_dec r (List.length ys)) as [->|]; [|lia]. exfalso.
    apply (Qlt_not_le _ _ Hhi). apply Hbelow. lia. }
  exists (r - 1)%nat. replace (r - 1 + 1)%nat with r by lia.
  split; [lia|]. split; [apply Hbelow; lia|apply Habove; lia].
Qed.

Lemma segment_offset_bounds (k : nat) (x : Q) :
  inject_Z (-270 + 10 * Z.of_nat k) <= x ->
  x < inject_Z (-270 + 10 * (Z.of_nat k + 1)) ->
  0 <= x - inject_Z (-270 + 10 * Z.of_nat k) /\
  x - inject_Z (-270 + 10 * Z.of_nat k) < 10.
Proof.
  intros Hlo Hhi. split.
  - unfold Qminus. rewrite <- Qle_minus_iff. exact Hlo.
  - apply Qlt_minus_iff.
    setoid_replace (10 + - (x - inject_Z (-270 + 10 * Z.of_nat k)))
      with (inject_Z (-270 + 10 * (Z.of_nat k + 1)) + - x).
    + rewrite <- Qlt_minus_iff. exact Hhi.
    + replace (-270 + 10 * (Z.of_nat k + 1))%Z with (-270 + 10 * Z.of_nat k + 10)%Z by lia.
      rewrite (inject_Z_plus _ 10). change (inject_Z 10) with 10. ring.
Qed.

(** [from_x] on a segment whose endpoints are in strict order returns
    a value between them. *)
Lemma from_x_segment_bounds (self : Interpolate) (k : nat) (x_value : Q) :
  let ys := y_array self in
  x_interval self = 10%Z ->
  (k + 1 < List.length ys)%nat ->
  ys.[k] < ys.[k + 1] ->
  inject_Z (-270 + 10 * Z.of_nat k) <= x_value ->
  x_value < inject_Z (-270 + 10 * (Z.of_nat k + 1)) ->
  exists r, from_x self x_value = Ok r /\
    r == ys.[k] + (ys.[k + 1] - ys.[k]) / 10
                  * (x_value - inject_Z (-270 + 10 * Z.of_nat k)) /\
    ys.[k] <= r /\ r < ys.[k + 1].
Proof.
  intros ys Hiv Hk Hgap Hlo Hhi.
  destruct (from_x_segment self k x_value Hiv Hk Hlo Hhi) as (_ & r & Hr & Hval).
  destruct (segment_offset_bounds k x_value Hlo Hhi) as [Ht0 Ht1].
  destruct (blend_bounds ys.[k] ys.[k + 1] 10 _ Hgap eq_refl Ht0 Ht1) as [B1 B2].
  exists r. fold ys in Hval.
  split; [exact Hr|]. split; [exact Hval|].
  rewrite Hval. split; assumption.
Qed.

(** [from_y] on a segment of a strictly ordered column, with a
    positive interval, returns a value within one interval of the row's
    x entry. *)
Lemma from_y_segment_bounds (self : Interpolate) (k : nat) (y_value : Q) :
  let xs := x_array self in
  let ys := y_array self in
  List.length xs = List.length ys ->
  sorted ys ->
  (0 < x_interval self)%Z ->
  (k + 1 < List.length ys)%nat ->
  ys.[k] <= y_value -> y_value < ys.[k + 1] ->
  exists r, from_y self y_value = Ok r /\
    r == xs.[k] + inject_Z (x_interval self) / (ys.[k + 1] - ys.[k]) * (y_value - ys.[k]) /\
    xs.[k] <= r /\ r < xs.[k] + inject_Z (x_interval self).
Proof.
  intros xs ys Hlen Hs Hiv Hk Hlo Hhi.
  destruct (from_y_segment self k y_value Hlen Hs Hk Hlo Hhi) as (_ & r & Hr & Hval).
  fold xs ys in Hval.
  assert (Hgap : ys.[k] < ys.[k + 1]) by (eapply Qle_lt_trans; [exact Hlo|exact Hhi]).
  assert (Hw : 0 < ys.[k + 1] - ys.[k])
    by (unfold Qminus; rewrite <- Qlt_minus_iff; exact Hgap).
  assert (Ht0 : 0 <= y_value - ys.[k])
    by (unfold Qminus; rewrite <- Qle_minus_iff; exact Hlo).
  assert (Ht1 : y_value - ys.[k] < ys.[k + 1] - ys.[k]).
  { unfold Qminus. apply Qplus_lt_l. exact Hhi. }
  assert (Hstep : xs.[k] < xs.[k] + inject_Z (x_interval self)).
  { rewrite <- (Qplus_0_r xs.[k]) at 1. apply Qplus_lt_r.
    change 0 with (inject_Z 0). rewrite <- Zlt_Qlt. exact Hiv. }
  destruct (blend_bounds xs.[k] (xs.[k] + inject_Z (x_interval self))
              (ys.[k + 1] - ys.[k]) (y_value - ys.[k]) Hstep Hw Ht0 Ht1) as [B1 B2].
  assert (Hval' : r == xs.[k] + (xs.[k] + inject_Z (x_interval self) - xs.[k])
                              / (ys.[k + 1] - ys.[k]) * (y_value - ys.[k])).
  { rewrite Hval. apply Qplus_comp; [reflexivity|].
    apply Qmult_comp; [|reflexivity].
    apply Qmult_comp; [ring|reflexivity]. }
  exists r. split; [exact Hr|]. split; [exact Hval|].
  rewrite Hval'. split; assumption.
Qed.

(** ** The range check of mv_to_degs *)

(** X1: [mv_to_degs] raises RangeError exactly when mv lies outside
    [min_mv, max_mv); inside the interval it returns what [from_y] returns,
    and no other call path of it raises a RangeError. *)
Theorem mv_to_degs_range_check (self : Thermocouple) (mv : Q) :
  (raises_RangeError (mv_to_degs self mv) = true
     <-> ~ (min_mv self <= mv /\ mv < max_mv self)) /\
  (min_mv self <= mv /\ mv < max_mv self ->
     mv_to_degs self mv = from_y (interp self) mv) /\
  raises_RangeError (mv_to_degs self (max_mv self)) = true.
Proof.
  split; [|split].
  - split.
    + intros Hraise [Hlo Hhi].
      rewrite (mv_to_degs_in_range self mv Hlo Hhi) in Hraise.
      rewrite from_y_no_RangeError in Hraise. discriminate.
    + intro Hout. rewrite (mv_to_degs_out_of_range self mv Hout). reflexivity.
  - intros [Hlo Hhi]. apply mv_to_degs_in_range; assumption.
  - rewrite mv_to_degs_out_of_range; [reflexivity|].
    intros [_ Hlt]. exact (Qlt_irrefl _ Hlt).
Qed.

(** The Type K converter at 14.798 mV and at its upper bound. *)
Lemma mv_to_degs_range_check_witness :
  (min_mv TypeK.tc <= 14798 # 1000 /\ 14798 # 1000 < max_mv TypeK.tc) /\
  mv_to_degs TypeK.tc (14798 # 1000) = from_y (interp TypeK.tc) (14798 # 1000) /\
  raises_RangeError (mv_to_degs TypeK.tc (max_mv TypeK.tc)) = true.
Proof.
  assert (h1 : min_mv TypeK.tc <= 14798 # 1000) by by_Qle.
  assert (h2 : 14798 # 1000 < max_mv TypeK.tc) by by_Qlt.
  destruct (mv_to_degs_range_check TypeK.tc (14798 # 1000)) as (_ & Hin & _).
  destruct (mv_to_degs_range_check TypeK.tc (max_mv TypeK.tc)) as (_ & _ & Hmax).
  exact (conj (conj h1 h2) (conj (Hin (conj h1 h2)) Hmax)).
Defined.

(** ** The Type K converter between its table rows *)

Lemma TypeK_mv_segment (mv : Q) :
  min_mv TypeK.tc <= mv -> mv < max_mv TypeK.tc ->
  exists k : nat,
    (k + 1 < 165)%nat /\
    (millivolts TypeK.tc).[k] <= mv /\ mv < (millivolts TypeK.tc).[k + 1].
Proof.
  intros Hlo Hhi.
  destruct (column_segment (millivolts TypeK.tc) mv
              (strictly_increasing_sorted _ TypeK_millivolts_increasing) Hlo)
    as (k & Hk & Hk1 & Hk2).
  - eapply Qlt_trans; [exact Hhi|]. reflexivity.
  - rewrite TypeK_length_millivolts in Hk. exists k. tauto.
Qed.

Lemma TypeK_degrees_segment (d : Q) :
  min_degrees TypeK.tc <= d -> d < max_degrees TypeK.tc ->
  exists k : nat,
    (k + 1 < 165)%nat /\
    (degrees TypeK.tc).[k] <= d /\ d < (degrees TypeK.tc).[k + 1].
Proof.
  intros Hlo Hhi.
  destruct (grid_segment 165 d Hlo Hhi) as (k & Hk & Hk1 & Hk2).
  exists k. split; [exact Hk|].
  rewrite !TypeK_degrees_nth by lia.
  split; [exact Hk1|].
  replace (Z.of_nat (k + 1)) with (Z.of_nat k + 1)%Z by lia. exact Hk2.
Qed.

Lemma TypeK_degs_to_mv_on_segment_core (k : nat) (x : Q) :
  (k + 1 < 165)%nat ->
  (degrees TypeK.tc).[k] <= x -> x < (degrees TypeK.tc).[k + 1] ->
  exists v, degs_to_mv TypeK.tc x = Ok v /\
    v == (millivolts TypeK.tc).[k]
         + ((millivolts TypeK.tc).[k + 1] - (millivolts TypeK.tc).[k]) / 10
           * (x - (degrees TypeK.tc).[k]) /\
    (x == (degrees TypeK.tc).[k] -> v == (millivolts TypeK.tc).[k]) /\
    (x == (degrees TypeK.tc).[k] + 5 ->
     v == ((millivolts TypeK.tc).[k] + (millivolts TypeK.tc).[k + 1]) / 2).
Proof.
  intros Hk Hlo Hhi.
  rewrite TypeK_degrees_nth in Hlo by lia.
  rewrite TypeK_degrees_nth in Hhi by lia.
  replace (Z.of_nat (k + 1)) with (Z.of_nat k + 1)%Z in Hhi by lia.
  destruct (from_x_segment (interp TypeK.tc) k x TypeK_interval) as (_ & v & Hv & Hval);
    [exact Hk|exact Hlo|exact Hhi|].
  change (y_array (interp TypeK.tc)) with (millivolts TypeK.tc) in Hval.
  exists v. split.
  - rewrite degs_to_mv_in_range; [exact Hv| |].
    + eapply Qle_trans; [|exact Hlo]. change (min_degrees TypeK.tc) with (inject_Z (-270)).
      rewrite <- Zle_Qle. lia.
    + eapply Qlt_le_trans; [exact Hhi|]. change (max_degrees TypeK.tc) with (inject_Z 1370).
      rewrite <- Zle_Qle. lia.
  - rewrite TypeK_degrees_nth by lia. split; [exact Hval|]. split; intro Hx.
    + rewrite Hval, Hx. ring.
    + rewrite Hval, Hx. field.
Qed.

(** X4: between two neighbouring rows of the Type K table,
    [degs_to_mv] is the straight line through them: for x in
    [x[k], x[k+1]) it returns y[k] + (y[k+1] - y[k]) / 10 * (x - x[k]).
    At a table temperature it returns that row's millivolts, and half way
    to the next row the mean of the two rows. *)
Theorem TypeK_degs_to_mv_on_segment (k : nat) (x : Q) :
  (k + 1 < 165)%nat ->
  (degrees TypeK.tc).[k] <= x -> x < (degrees TypeK.tc).[k + 1] ->
  exists v, degs_to_mv TypeK.tc x = Ok v /\
    v == (millivolts TypeK.tc).[k]
         + ((millivolts TypeK.tc).[k + 1] - (millivolts TypeK.tc).[k]) / 10
           * (x - (degrees TypeK.tc).[k]) /\
    (x == (degrees TypeK.tc).[k] -> v == (millivolts TypeK.tc).[k]) /\
    (x == (degrees TypeK.tc).[k] + 5 ->
     v == ((millivolts TypeK.tc).[k] + (millivolts TypeK.tc).[k + 1]) / 2).
Proof.
  intros Hk Hlo Hhi.
  destruct (TypeK_degs_to_mv_on_segment_core k x Hk Hlo Hhi)
    as (v & Hv & Hval & Hrow & Hmid).
  exists v. split; [exact Hv|]. split; [exact Hval|]. split; [exact Hrow|exact Hmid].
Qed.

(** Row 29 of the Type K table (20 degrees) and 23 degrees. *)
Lemma TypeK_degs_to_mv_on_segment_witness :
  (29 + 1 < 165)%nat /\
  (degrees TypeK.tc).[29] <= 23 /\ 23 < (degrees TypeK.tc).[29 + 1] /\
  exists v, degs_to_mv TypeK.tc 23 = Ok v /\
    v == (millivolts TypeK.tc).[29]
         + ((millivolts TypeK.tc).[29 + 1] - (millivolts TypeK.tc).[29]) / 10
           * (23 - (degrees TypeK.tc).[29]).
Proof.
  assert (h1 : (29 + 1 < 165)%nat) by lia.
  assert (h2 : (degrees TypeK.tc).[29] <= 23) by by_Qle.
  assert (h3 : 23 < (degrees TypeK.tc).[29 + 1]) by by_Qlt.
  destruct (TypeK_degs_to_mv_on_segment 29 23 h1 h2 h3) as (v & Hv & Hval & _).
  exact (conj h1 (conj h2 (conj h3 (ex_intro _ v (conj Hv Hval))))).
Defined.

Lemma TypeK_output_ranges_core (d mv : Q) :
  min_degrees TypeK.tc <= d -> d < max_degrees TypeK.tc ->
  min_mv TypeK.tc <= mv -> mv < max_mv TypeK.tc ->
  (exists v, degs_to_mv TypeK.tc d = Ok v /\
     (millivolts TypeK.tc).[0] <= v /\ v < (millivolts TypeK.tc).[164]) /\
  (exists t, mv_to_degs TypeK.tc mv = Ok t /\
     min_degrees TypeK.tc <= t /\ t < max_degrees TypeK.tc).
Proof.
  intros Hdlo Hdhi Hmlo Hmhi.
  assert (Hs := strictly_increasing_sorted _ TypeK_millivolts_increasing).
  split.
  - destruct (grid_segment 165 d Hdlo Hdhi) as (k & Hk & Hk1 & Hk2).
    destruct (from_x_segment_bounds (interp TypeK.tc) k d TypeK_interval)
      as (v & Hv & _ & B1 & B2); [exact Hk| |exact Hk1|exact Hk2|].
    + apply TypeK_millivolts_increasing. rewrite TypeK_length_millivolts. lia.
    + change (y_array (interp TypeK.tc)) with (millivolts TypeK.tc) in B1, B2.
      exists v. split; [rewrite degs_to_mv_in_range by assumption; exact Hv|].
      split.
      * eapply Qle_trans; [|exact B1]. apply Hs. rewrite TypeK_length_millivolts. lia.
      * eapply Qlt_le_trans; [exact B2|]. apply Hs. rewrite TypeK_length_millivolts. lia.
  - destruct (TypeK_mv_segment mv Hmlo Hmhi) as (k & Hk & Hk1 & Hk2).
    destruct (from_y_segment_bounds (interp TypeK.tc) k mv)
      as (t & Ht & _ & B1 & B2);
      [reflexivity|exact Hs|reflexivity|exact Hk|exact Hk1|exact Hk2|].
    change (x_array (interp TypeK.tc)) with (degrees TypeK.tc) in B1, B2.
    change (inject_Z (x_interval (interp TypeK.tc))) with (inject_Z 10) in B2.
    rewrite TypeK_degrees_nth in B1, B2 by lia.
    rewrite <- inject_Z_plus in B2.
    exists t. split; [rewrite mv_to_degs_in_range by assumption; exact Ht|].
    split.
    + eapply Qle_trans; [|exact B1]. change (min_degrees TypeK.tc) with (inject_Z (-270)).
      rewrite <- Zle_Qle. lia.
    + eapply Qlt_le_trans; [exact B2|]. change (max_degrees TypeK.tc) with (inject_Z 1370).
      rewrite <- Zle_Qle. lia.
Qed.

(** X5: the Type K converter maps each domain into the other axis:
    [degs_to_mv] returns a value in [first table entry, last table entry)
    and [mv_to_degs] a value in [min_degrees, max_degrees). *)
Theorem TypeK_output_ranges (d mv : Q) :
  min_degrees TypeK.tc <= d -> d < max_degrees TypeK.tc ->
  min_mv TypeK.tc <= mv -> mv < max_mv TypeK.tc ->
  (exists v, degs_to_mv TypeK.tc d = Ok v /\
     (millivolts TypeK.tc).[0] <= v /\ v < (millivolts TypeK.tc).[164]) /\
  (exists t, mv_to_degs TypeK.tc mv = Ok t /\
     min_degrees TypeK.tc <= t /\ t < max_degrees TypeK.tc).
Proof.
  intros Hdlo Hdhi Hmlo Hmhi.
  destruct (TypeK_output_ranges_core d mv Hdlo Hdhi Hmlo Hmhi)
    as ((v & Hv & Hv1 & Hv2) & (t & Ht & Ht1 & Ht2)).
  split.
  - exists v. split; [exact Hv|]. split; [exact Hv1|exact Hv2].
  - exists t. split; [exact Ht|]. split; [exact Ht1|exact Ht2].
Qed.

(** The Type K converter at 20 degrees and at 14.798 mV. *)
Lemma TypeK_output_ranges_witness :
  min_degrees TypeK.tc <= 20 /\ 20 < max_degrees TypeK.tc /\
  min_mv TypeK.tc <= 14798 # 1000 /\ 14798 # 1000 < max_mv TypeK.tc /\
  (exists t, mv_to_degs TypeK.tc (14798 # 1000) = Ok t /\
     min_degrees TypeK.tc <= t /\ t < max_degrees TypeK.tc).
Proof.
  assert (h1 : min_degrees TypeK.tc <= 20) by by_Qle.
  assert (h2 : 20 < max_degrees TypeK.tc) by by_Qlt.
  assert (h3 : min_mv TypeK.tc <= 14798 # 1000) by by_Qle.
  assert (h4 : 14798 # 1000 < max_mv TypeK.tc) by by_Qlt.
  exact (conj h1 (conj h2 (conj h3 (conj h4
    (proj2 (TypeK_output_ranges 20 (14798 # 1000) h1 h2 h3 h4)))))).
Defined.

(** ** Round trips *)

(** X6: on the Type K converter the round trip that starts from a
    voltage always closes: for every mv in [min_mv, max_mv),
    [mv_to_degs] returns a temperature that [degs_to_mv] accepts and
    converts back to mv. *)
Theorem TypeK_mv_round_trip (mv : Q) :
  min_mv TypeK.tc <= mv -> mv < max_mv TypeK.tc ->
  exists d, mv_to_degs TypeK.tc mv = Ok d /\
    exists mv', degs_to_mv TypeK.tc d = Ok mv' /\ mv' == mv.
Proof.
  intros Hlo Hhi.
  assert (Hs := strictly_increasing_sorted _ TypeK_millivolts_increasing).
  destruct (TypeK_mv_segment mv Hlo Hhi) as (k & Hk & Hk1 & Hk2).
  destruct (from_y_segment_bounds (interp TypeK.tc) k mv)
    as (d & Hd & Hdval & B1 & B2);
    [reflexivity|exact Hs|reflexivity|exact Hk|exact Hk1|exact Hk2|].
  change (x_array (interp TypeK.tc)) with (degrees TypeK.tc) in Hdval, B1, B2.
  change (y_array (interp TypeK.tc)) with (millivolts TypeK.tc) in Hdval.
  change (inject_Z (x_interval (interp TypeK.tc))) with 10 in Hdval, B2.
  exists d. split; [rewrite mv_to_degs_in_range by assumption; exact Hd|].
  assert (B2' : d < (degrees TypeK.tc).[k + 1]).
  { eapply Qlt_le_trans; [exact B2|].
    rewrite !TypeK_degrees_nth by lia. change 10 with (inject_Z 10).
    rewrite <- inject_Z_plus, <- Zle_Qle. lia. }
  destruct (TypeK_degs_to_mv_on_segment_core k d Hk B1 B2') as (mv' & Hmv' & Hval' & _).
  exists mv'. split; [exact Hmv'|].
  rewrite Hval'.
  setoid_replace (d - (degrees TypeK.tc).[k])
    with (10 / ((millivolts TypeK.tc).[k + 1] - (millivolts TypeK.tc).[k])
          * (mv - (millivolts TypeK.tc).[k]))
    by (rewrite Hdval; ring).
  field.
  apply Qlt_gap_nonzero. eapply Qle_lt_trans; [exact Hk1|exact Hk2].
Qed.

(** The Type K converter at 14.798 mV. *)
Lemma TypeK_mv_round_trip_witness :
  min_mv TypeK.tc <= 14798 # 1000 /\ 14798 # 1000 < max_mv TypeK.tc /\
  exists d, mv_to_degs TypeK.tc (14798 # 1000) = Ok d /\
    exists mv', degs_to_mv TypeK.tc d = Ok mv' /\ mv' == 14798 # 1000.
Proof.
  assert (h1 : min_mv TypeK.tc <= 14798 # 1000) by by_Qle.
  assert (h2 : 14798 # 1000 < max_mv TypeK.tc) by by_Qlt.
  exact (conj h1 (conj h2 (TypeK_mv_round_trip (14798 # 1000) h1 h2))).
Defined.

(** X7: on the Type K converter the round trip that starts from a
    temperature closes whenever its voltage passes the range check of
    [mv_to_degs]: for d in [min_degrees, max_degrees), [degs_to_mv]
    returns a voltage, and if that voltage is below max_mv then
    [mv_to_degs] converts it back to d. *)
Theorem TypeK_degrees_round_trip (d : Q) :
  min_degrees TypeK.tc <= d -> d < max_degrees TypeK.tc ->
  exists mv, degs_to_mv TypeK.tc d = Ok mv /\
    (raises_RangeError (mv_to_degs TypeK.tc mv) = false <-> mv < max_mv TypeK.tc) /\
    (mv < max_mv TypeK.tc ->
     exists d', mv_to_degs TypeK.tc mv = Ok d' /\ d' == d).
Proof.
  intros Hlo Hhi.
  destruct (TypeK_round_trip_below_max_mv d Hlo Hhi) as (mv & Hmv & Hback).
  destruct (TypeK_output_ranges_core d 0 Hlo Hhi) as ((v & Hv & Hv0 & _) & _);
    [by_Qle|by_Qlt|].
  rewrite Hmv in Hv. injection Hv as <-.
  exists mv. split; [exact Hmv|]. split; [|exact Hback].
  split.
  - intro Hno. destruct (Qlt_le_dec mv (max_mv TypeK.tc)) as [|Hge]; [assumption|].
    rewrite mv_to_degs_out_of_range in Hno; [discriminate Hno|].
    intros [_ Hlt]. exact (Qlt_not_le _ _ Hlt Hge).
  - intro Hlt. destruct (Hback Hlt) as (d' & Hd' & _). rewrite Hd'. reflexivity.
Qed.

(** The Type K converter at 20 degrees. *)
Lemma TypeK_degrees_round_trip_witness :
  min_degrees TypeK.tc <= 20 /\ 20 < max_degrees TypeK.tc /\
  exists mv, degs_to_mv TypeK.tc 20 = Ok mv /\
    (mv < max_mv TypeK.tc ->
     exists d', mv_to_degs TypeK.tc mv = Ok d' /\ d' == 20).
Proof.
  assert (h1 : min_degrees TypeK.tc <= 20) by by_Qle.
  assert (h2 : 20 < max_degrees TypeK.tc) by by_Qlt.
  destruct (TypeK_degrees_round_trip 20 h1 h2) as (mv & Hmv & _ & Hback).
  exact (conj h1 (conj h2 (ex_intro _ mv (conj Hmv Hback)))).
Defined.

(** ** The interpolator without the range checks *)

Lemma getitem_past_end {A} (a : list A) (i : Z) :
  (Z.of_nat (List.length a) <= i)%Z -> Py.getitem a i = Raise IndexError.
Proof.
  intro Hi. unfold Py.getitem.
  destruct (Z.ltb_spec i 0); [lia|].
  destruct (Z.ltb_spec i (Z.of_nat (List.length a))); [lia|].
  rewrite andb_false_r. reflexivity.
Qed.

Lemma getitem_Ok_or_IndexError {A} (a : list A) (i : Z) :
  (exists v, Py.getitem a i = Ok v) \/ Py.getitem a i = Raise IndexError.
Proof.
  unfold Py.getitem.
  destruct (_ && _)%bool; [|right; reflexivity].
  destruct (nth_error _ _) as [v|]; [left; exists v; reflexivity|right; reflexivity].
Qed.

(** [a[-1]] is the last entry of a non-empty list. *)
Lemma getitem_minus_one {A} (a : list A) (d : A) :
  (1 <= List.length a)%nat ->
  Py.getitem a (-1) = Ok (nth (List.length a - 1) a d).
Proof.
  intro HN. unfold Py.getitem.
  change (-1 <? 0)%Z with true. cbv iota.
  destruct (Z.leb_spec 0 (Z.of_nat (List.length a) + -1)); [|lia].
  destruct (Z.ltb_spec (Z.of_nat (List.length a) + -1) (Z.of_nat (List.length a))); [|lia].
  cbn [andb].
  replace (Z.to_nat (Z.of_nat (List.length a) + -1)) with (List.length a - 1)%nat by lia.
  rewrite (nth_error_nth' a d) by lia. reflexivity.
Qed.

Lemma from_x_idx_ten (self : Interpolate) (x_value : Q) :
  x_interval self = 10%Z ->
  from_x_idx self x_value = Ok (Qfloor (x_value / 10) + 28)%Z.
Proof.
  intro Hiv. unfold from_x_idx. rewrite Hiv.
  rewrite floordiv_nonzero by exact ten_nonzero. cbn [bind].
  change 28 with (inject_Z 28). rewrite int_inject_Z_plus. reflexivity.
Qed.

(** X8: called without the range check at or above the end of the
    grid (x_value >= 10 * (N - 28), i.e. 1370 for the Type K table),
    [from_x] with interval 10 raises IndexError. *)
Theorem from_x_above_grid_raises (self : Interpolate) (x_value : Q) :
  x_interval self = 10%Z ->
  inject_Z (10 * (Z.of_nat (List.length (y_array self)) - 28)) <= x_value ->
  from_x self x_value = Raise IndexError.
Proof.
  intros Hiv Hx.
  set (N := Z.of_nat (List.length (y_array self))) in *.
  assert (Hq : (N - 28 <= Qfloor (x_value / 10))%Z).
  { rewrite <- (Qfloor_Z (N - 28)). apply Qfloor_resp_le.
    apply Qle_shift_div_l; [reflexivity|].
    eapply Qle_trans; [|exact Hx].
    change 10 with (inject_Z 10). rewrite <- inject_Z_mult, <- Zle_Qle. lia. }
  unfold from_x. rewrite (from_x_idx_ten self x_value Hiv). cbn [bind].
  rewrite mod_nonzero by exact ten_nonzero. cbn [bind].
  destruct (getitem_Ok_or_IndexError (y_array self) (Qfloor (x_value / 10) + 28 - 1))
    as [[v Hv]|Hv]; rewrite Hv; cbn [bind]; [|reflexivity].
  rewrite (getitem_past_end (y_array self)) by (fold N; lia). reflexivity.
Qed.

(** The Type K interpolator at 1370 and at 5000 degrees. *)
Lemma from_x_above_grid_raises_witness :
  x_interval (interp TypeK.tc) = 10%Z /\
  inject_Z (10 * (Z.of_nat (List.length (y_array (interp TypeK.tc))) - 28)) <= 1370 /\
  from_x (interp TypeK.tc) 1370 = Raise IndexError.
Proof.
  assert (h1 : x_interval (interp TypeK.tc) = 10%Z) by reflexivity.
  assert (h2 : inject_Z (10 * (Z.of_nat (List.length (y_array (interp TypeK.tc))) - 28))
               <= 1370) by by_Qle.
  exact (conj h1 (conj h2 (from_x_above_grid_raises (interp TypeK.tc) 1370 h1 h2))).
Defined.

(** X9: called without the range check just below the grid
    (-280 <= x_value < -270), [from_x] with interval 10 raises nothing:
    its index is 0, the lower bracket entry is read at index -1, which is
    the last entry of the y column, and the result is the blend of the
    last and the first entry. *)
Theorem from_x_below_grid_wraps (self : Interpolate) (x_value : Q) :
  let ys := y_array self in
  x_interval self = 10%Z ->
  (1 <= List.length ys)%nat ->
  -280 <= x_value -> x_value < -270 ->
  from_x_idx self x_value = Ok 0%Z /\
  exists r, from_x self x_value = Ok r /\
    r == ys.[List.length ys - 1]
         + (ys.[0] - ys.[List.length ys - 1]) / 10 * (x_value - -280).
Proof.
  intros ys Hiv HN Hlo Hhi.
  assert (Hq : Qfloor (x_value / 10) = (-28)%Z).
  { apply Qfloor_unique.
    - apply Qle_shift_div_l; [reflexivity|exact Hlo].
    - apply Qlt_shift_div_r; [reflexivity|exact Hhi]. }
  assert (Hidx : from_x_idx self x_value = Ok 0%Z).
  { rewrite (from_x_idx_ten self x_value Hiv), Hq. reflexivity. }
  split; [exact Hidx|].
  unfold from_x. rewrite Hidx. cbn [bind].
  rewrite mod_nonzero by exact ten_nonzero. cbn [bind]. rewrite Hq.
  change (0 - 1)%Z with (-1)%Z. fold ys.
  rewrite (getitem_minus_one ys 0 HN). cbn [bind].
  assert (H0 : Py.getitem ys 0%Z = Ok ys.[0]) by (apply (getitem_nat ys 0 0); lia).
  rewrite H0. cbn [bind].
  rewrite Hiv. change (inject_Z 10) with 10.
  rewrite truediv_nonzero by exact ten_nonzero. cbn [bind].
  eexists. split; [reflexivity|].
  change (inject_Z (-28)) with (-28). ring.
Qed.

(** The Type K interpolator at -275 degrees: half way between the
    last entry 54.819 and the first entry -6.458. *)
Lemma from_x_below_grid_wraps_witness :
  x_interval (interp TypeK.tc) = 10%Z /\
  (1 <= List.length (y_array (interp TypeK.tc)))%nat /\
  -280 <= -275 /\ -275 < -270 /\
  exists r, from_x (interp TypeK.tc) (-275) = Ok r /\
    r == (y_array (interp TypeK.tc)).[List.length (y_array (interp TypeK.tc)) - 1]
         + ((y_array (interp TypeK.tc)).[0]
            - (y_array (interp TypeK.tc)).[List.length (y_array (interp TypeK.tc)) - 1]) / 10
           * (-275 - -280).
Proof.
  assert (h1 : x_interval (interp TypeK.tc) = 10%Z) by reflexivity.
  assert (h2 : (1 <= List.length (y_array (interp TypeK.tc)))%nat) by (vm_compute; lia).
  assert (h3 : -280 <= -275) by by_Qle.
  assert (h4 : -275 < -270) by by_Qlt.
  exact (conj h1 (conj h2 (conj h3 (conj h4
    (proj2 (from_x_below_grid_wraps (interp TypeK.tc) (-275) h1 h2 h3 h4)))))).
Defined.

(** X10: called without the range check below the first entry of a
    strictly increasing y column (N >= 2), [from_y] raises nothing: the
    search returns 0, the bracket is read at index -1, and the result is
    the line through (y[N-1], x[N-1]) of slope
    x_interval / (y[0] - y[N-1]). *)
Theorem from_y_below_column_wraps (self : Interpolate) (y_value : Q) :
  let xs := x_array self in
  let ys := y_array self in
  let N := List.length ys in
  List.length xs = N ->
  strictly_increasing ys ->
  (2 <= N)%nat ->
  y_value < ys.[0] ->
  from_y_idx self y_value = 0%Z /\
  exists r, from_y self y_value = Ok r /\
    r == xs.[N - 1]
         + inject_Z (x_interval self) / (ys.[0] - ys.[N - 1]) * (y_value - ys.[N - 1]).
Proof.
  intros xs ys N Hlen Hinc HN Hv.
  destruct (bisect_spec ys y_value (strictly_increasing_sorted _ Hinc))
    as (r & Hr & _ & Hbelow & _).
  assert (Hr0 : r = 0%nat).
  { destruct r; [reflexivity|]. exfalso.
    apply (Qlt_not_le _ _ Hv). apply Hbelow. lia. }
  subst r.
  assert (Hidx : from_y_idx self y_value = 0%Z) by exact Hr.
  split; [exact Hidx|].
  unfold from_y. rewrite Hidx. fold xs ys. change (0 - 1)%Z with (-1)%Z.
  rewrite (getitem_minus_one xs 0) by lia. rewrite Hlen.
  rewrite (getitem_minus_one ys 0) by (fold N; lia). fold N.
  assert (H0 : Py.getitem ys 0%Z = Ok ys.[0])
    by (apply (getitem_nat ys 0 0); fold N; lia).
  rewrite H0. cbn [bind].
  assert (Hgap : ys.[0] < ys.[N - 1]) by (apply Hinc; fold N; lia).
  assert (Hnz : ~ ys.[0] - ys.[N - 1] == 0).
  { intro E. apply (Qlt_gap_nonzero _ _ Hgap).
    setoid_replace (ys.[N - 1] - ys.[0]) with (- (ys.[0] - ys.[N - 1])) by ring.
    rewrite E. reflexivity. }
  rewrite truediv_nonzero by exact Hnz. cbn [bind].
  eexists. split; [reflexivity|]. ring.
Qed.

(** The Type K interpolator at -7 mV. *)
Lemma from_y_below_column_wraps_witness :
  List.length (x_array (interp TypeK.tc)) = List.length (y_array (interp TypeK.tc)) /\
  strictly_increasing (y_array (interp TypeK.tc)) /\
  (2 <= List.length (y_array (interp TypeK.tc)))%nat /\
  -7 < (y_array (interp TypeK.tc)).[0] /\
  from_y_idx (interp TypeK.tc) (-7) = 0%Z.
Proof.
  assert (h1 : List.length (x_array (interp TypeK.tc))
               = List.length (y_array (interp TypeK.tc))) by reflexivity.
  assert (h3 : (2 <= List.length (y_array (interp TypeK.tc)))%nat) by (vm_compute; lia).
  assert (h4 : -7 < (y_array (interp TypeK.tc)).[0]) by by_Qlt.
  exact (conj h1 (conj TypeK_millivolts_increasing (conj h3 (conj h4
    (proj1 (from_y_below_column_wraps (interp TypeK.tc) (-7)
              h1 TypeK_millivolts_increasing h3 h4)))))).
Defined.

(** X11: called without the range check at or above the last entry
    of a sorted, non-empty y column, [from_y] raises IndexError: the
    search returns N and the upper bracket entry y[N] does not exist. *)
Theorem from_y_above_column_raises (self : Interpolate) (y_value : Q) :
  let xs := x_array self in
  let ys := y_array self in
  let N := List.length ys in
  List.length xs = N ->
  sorted ys ->
  (1 <= N)%nat ->
  ys.[N - 1] <= y_value ->
  from_y_idx self y_value = Z.of_nat N /\
  from_y self y_value = Raise IndexError.
Proof.
  intros xs ys N Hlen Hs HN Hv.
  destruct (bisect_spec ys y_value Hs) as (r & Hr & HrN & _ & Habove).
  fold N in HrN, Habove.
  assert (HrN' : r = N).
  { destruct (Nat.eq_dec r N) as [|Hne]; [assumption|]. exfalso.
    apply (Qlt_not_le _ _ (Habove (N - 1)%nat ltac:(lia)) Hv). }
  subst r.
  assert (Hidx : from_y_idx self y_value = Z.of_nat N) by exact Hr.
  split; [exact Hidx|].
  unfold from_y. rewrite Hidx. fold xs ys.
  replace (Z.of_nat N - 1)%Z with (Z.of_nat (N - 1)) by lia.
  rewrite (getitem_nat xs (N - 1) 0) by lia.
  rewrite (getitem_nat ys (N - 1) 0) by (fold N; lia).
  rewrite (getitem_past_end ys) by (fold N; lia).
  reflexivity.
Qed.

(** The Type K interpolator at 54.819 mV, the last table entry. *)
Lemma from_y_above_column_raises_witness :
  List.length (x_array (interp TypeK.tc)) = List.length (y_array (interp TypeK.tc)) /\
  sorted (y_array (interp TypeK.tc)) /\
  (1 <= List.length (y_array (interp TypeK.tc)))%nat /\
  (y_array (interp TypeK.tc)).[List.length (y_array (interp TypeK.tc)) - 1] <= 54819 # 1000 /\
  from_y (interp TypeK.tc) (54819 # 1000) = Raise IndexError.
Proof.
  assert (h1 : List.length (x_array (interp TypeK.tc))
               = List.length (y_array (interp TypeK.tc))) by reflexivity.
  assert (h2 : sorted (y_array (interp TypeK.tc)))
    by exact (strictly_increasing_sorted _ TypeK_millivolts_increasing).
  assert (h3 : (1 <= List.length (y_array (interp TypeK.tc)))%nat) by (vm_compute; lia).
  assert (h4 : (y_array (interp TypeK.tc)).[List.length (y_array (interp TypeK.tc)) - 1]
               <= 54819 # 1000) by by_Qle.
  exact (conj h1 (conj h2 (conj h3 (conj h4
    (proj2 (from_y_above_column_raises (interp TypeK.tc) (54819 # 1000) h1 h2 h3 h4)))))).
Defined.

(** X12: [from_y] needs the y column only to be sorted, not strictly
    increasing: for y_value in [y[0], y[N-1]) it finds a row k with
    y[k] <= y_value < y[k+1], so the divisor y[k+1] - y[k] is positive,
    and returns x[k] + x_interval / (y[k+1] - y[k]) * (y_value - y[k]). *)
Theorem from_y_sorted_returns (self : Interpolate) (y_value : Q) :
  let xs := x_array self in
  let ys := y_array self in
  List.length xs = List.length ys ->
  sorted ys ->
  ys.[0] <= y_value -> y_value < ys.[List.length ys - 1] ->
  exists k : nat,
    (k + 1 < List.length ys)%nat /\
    ys.[k] <= y_value /\ y_value < ys.[k + 1] /\
    0 < ys.[k + 1] - ys.[k] /\
    from_y_idx self y_value = Z.of_nat (k + 1) /\
    exists r, from_y self y_value = Ok r /\
      r == xs.[k] + inject_Z (x_interval self) / (ys.[k + 1] - ys.[k]) * (y_value - ys.[k]).
Proof.
  intros xs ys Hlen Hs Hlo Hhi.
  destruct (column_segment ys y_value Hs Hlo Hhi) as (k & Hk & Hk1 & Hk2).
  destruct (from_y_segment self k y_value Hlen Hs Hk Hk1 Hk2) as (Hidx & Hr).
  exists k. split; [exact Hk|]. split; [exact Hk1|]. split; [exact Hk2|].
  split; [|split; [exact Hidx|exact Hr]].
  unfold Qminus. rewrite <- Qlt_minus_iff.
  eapply Qle_lt_trans; [exact Hk1|exact Hk2].
Qed.

(** The Type K interpolator at 14.798 mV. *)
Lemma from_y_sorted_returns_witness :
  List.length (x_array (interp TypeK.tc)) = List.length (y_array (interp TypeK.tc)) /\
  sorted (y_array (interp TypeK.tc)) /\
  (y_array (interp TypeK.tc)).[0] <= 14798 # 1000 /\
  14798 # 1000 < (y_array (interp TypeK.tc)).[List.length (y_array (interp TypeK.tc)) - 1] /\
  exists k : nat,
    (k + 1 < List.length (y_array (interp TypeK.tc)))%nat /\
    (y_array (interp TypeK.tc)).[k] <= 14798 # 1000 /\
    14798 # 1000 < (y_array (interp TypeK.tc)).[k + 1] /\
    0 < (y_array (interp TypeK.tc)).[k + 1] - (y_array (interp TypeK.tc)).[k] /\
    from_y_idx (interp TypeK.tc) (14798 # 1000) = Z.of_nat (k + 1) /\
    exists r, from_y (interp TypeK.tc) (14798 # 1000) = Ok r /\
      r == (x_array (interp TypeK.tc)).[k]
           + inject_Z (x_interval (interp TypeK.tc))
             / ((y_array (interp TypeK.tc)).[k + 1] - (y_array (interp TypeK.tc)).[k])
             * ((14798 # 1000) - (y_array (interp TypeK.tc)).[k]).
Proof.
  assert (h1 : List.length (x_array (interp TypeK.tc))
               = List.length (y_array (interp TypeK.tc))) by reflexivity.
  assert (h2 : sorted (y_array (interp TypeK.tc)))
    by exact (strictly_increasing_sorted _ TypeK_millivolts_increasing).
  assert (h3 : (y_array (interp TypeK.tc)).[0] <= 14798 # 1000) by by_Qle.
  assert (h4 : 14798 # 1000
               < (y_array (interp TypeK.tc)).[List.length (y_array (interp TypeK.tc)) - 1])
    by by_Qlt.
  exact (conj h1 (conj h2 (conj h3 (conj h4
    (from_y_sorted_returns (interp TypeK.tc) (14798 # 1000) h1 h2 h3 h4))))).
Defined.

(** ** The constructor *)

Lemma int_small (q : Q) : -1 < q -> q < 1 -> Py.int q = 0%Z.
Proof.
  destruct q as [n d]. unfold Qlt, Py.int. cbn [Qnum Qden]. intros H1 H2.
  apply Z.quot_small_iff; lia.
Qed.

(** X13: [Interpolate.__init__] truncates the interval to an
    integer, so an interval strictly between -1 and 1 is stored as 0; with
    it every call of [from_x] raises ZeroDivisionError, whatever the
    tables hold. *)
Theorem from_x_zero_interval (interval : Q) (xs ys : list Q) (x_value : Q) :
  -1 < interval -> interval < 1 ->
  x_interval (Interpolate_init interval xs ys) = 0%Z /\
  from_x (Interpolate_init interval xs ys) x_value = Raise ZeroDivisionError.
Proof.
  intros H1 H2.
  assert (H0 : x_interval (Interpolate_init interval xs ys) = 0%Z)
    by (cbn [Interpolate_init x_interval]; apply int_small; assumption).
  split; [exact H0|].
  unfold from_x, from_x_idx. rewrite H0. reflexivity.
Qed.

(** An interval of one half with the Type K tables. *)
Lemma from_x_zero_interval_witness :
  -1 < 1 # 2 /\ 1 # 2 < 1 /\
  from_x (Interpolate_init (1 # 2) (degrees TypeK.tc) (millivolts TypeK.tc)) 20
    = Raise ZeroDivisionError.
Proof.
  assert (h1 : -1 < 1 # 2) by by_Qlt.
  assert (h2 : 1 # 2 < 1) by by_Qlt.
  exact (conj h1 (conj h2
    (proj2 (from_x_zero_interval (1 # 2) (degrees TypeK.tc) (millivolts TypeK.tc) 20 h1 h2)))).
Defined.

(** ** The compensated temperature on the Type K converter *)

(** X14: on the Type K converter [temperature] raises neither
    IndexError nor ZeroDivisionError, and a temperature it returns lies in
    [min_degrees, max_degrees).  A reference temperature outside
    [min_degrees, max_degrees) is refused with a RangeError that carries
    it, before the junction voltage is looked at. *)
Theorem TypeK_temperature_safe (reference junction : Q) :
  (~ (min_degrees TypeK.tc <= reference /\ reference < max_degrees TypeK.tc) ->
   temperature TypeK.tc reference junction
   = Raise (RangeError [Num reference; Text "mV out of range."])) /\
  temperature TypeK.tc reference junction <> Raise IndexError /\
  temperature TypeK.tc reference junction <> Raise ZeroDivisionError /\
  (forall d, temperature TypeK.tc reference junction = Ok d ->
     min_degrees TypeK.tc <= d /\ d < max_degrees TypeK.tc).
Proof.
  assert (Hout : ~ (min_degrees TypeK.tc <= reference /\ reference < max_degrees TypeK.tc) ->
                 temperature TypeK.tc reference junction
                 = Raise (RangeError [Num reference; Text "mV out of range."])).
  { intro H. unfold temperature.
    rewrite (degs_to_mv_out_of_range TypeK.tc reference H). reflexivity. }
  split; [exact Hout|].
  destruct (in_range_dec (min_degrees TypeK.tc) (max_degrees TypeK.tc) reference)
    as [[Hlo Hhi]|Hno].
  - destruct (TypeK_degs_to_mv_returns reference Hlo Hhi) as (_ & _ & _ & mv & Hmv & _).
    unfold temperature. rewrite Hmv. cbn [bind].
    destruct (in_range_dec (min_mv TypeK.tc) (max_mv TypeK.tc) (mv + junction))
      as [[Hmlo Hmhi]|Hmno].
    + destruct (TypeK_output_ranges_core reference (mv + junction) Hlo Hhi Hmlo Hmhi)
        as (_ & d & Hd & Hd1 & Hd2).
      rewrite Hd. split; [discriminate|]. split; [discriminate|].
      intros d' E. injection E as <-. split; assumption.
    + rewrite (mv_to_degs_out_of_range TypeK.tc _ Hmno).
      split; [discriminate|]. split; [discriminate|]. intros d E. discriminate E.
  - rewrite (Hout Hno).
    split; [discriminate|]. split; [discriminate|]. intros d E. discriminate E.
Qed.

(** The scenarios of the demo on the Type K converter: a reference
    of 2000 degrees, and a reference of 20 degrees with 14 mV. *)
Lemma TypeK_temperature_safe_witness :
  (~ (min_degrees TypeK.tc <= 2000 /\ 2000 < max_degrees TypeK.tc)) /\
  temperature TypeK.tc 2000 14 = Raise (RangeError [Num 2000; Text "mV out of range."]) /\
  exists d, temperature TypeK.tc 20 14 = Ok d /\
    min_degrees TypeK.tc <= d /\ d < max_degrees TypeK.tc.
Proof.
  assert (h1 : ~ (min_degrees TypeK.tc <= 2000 /\ 2000 < max_degrees TypeK.tc)).
  { intros [_ H]. apply Qlt_bool_iff in H. vm_compute in H. discriminate H. }
  assert (e : exists d, temperature TypeK.tc 20 14 = Ok d)
    by (eexists; vm_compute; reflexivity).
  destruct e as [d e].
  destruct (TypeK_temperature_safe 2000 14) as (Hout & _).
  destruct (TypeK_temperature_safe 20 14) as (_ & _ & _ & Hin).
  exact (conj h1 (conj (Hout h1) (ex_intro _ d (conj e (Hin d e))))).
Defined.
